(** * Time-stepping drivers of the landscape-metrics course notebooks

    A shallow embedding of the code cells of
    [hillslope_nonlineardiffusion_class_notebook.ipynb] (and of the
    linear-diffusion notebook embedded in the second source file) and of
    [channels_hillslopes_notebook.ipynb].

    The notebooks compute on IEEE binary64 numbers (Python [float],
    NumPy [float64]) and on Python integers.  The cells are embedded once,
    over an interface [PyNum] of the arithmetic operations they use, and the
    interface is instantiated twice:
    - [B64.binary64]: binary64 with round-to-nearest-even, built on the
      standard library's [SpecFloat]; this is what the notebooks run on;
    - [Ideal.real]: the real numbers, the arithmetic in which the prose of
      the specification states its formulas.

    The Landlab components ([LinearDiffuser], [TaylorNonLinearDiffuser],
    [FlowAccumulator], [StreamPowerEroder]) are not part of the repository;
    they enter as section variables acting on the grid's fields. *)

From Stdlib Require Import ZArith Reals Lra Lia.
From Stdlib Require Import Floats.SpecFloat.
From stdpp Require Import base list option.

(* ================================================================== *)
(** * 1. Host semantics: exceptions and the kernel monad *)
(* ================================================================== *)

(** The Python exceptions the embedded cells can raise. *)
Inductive exn : Set :=
| ZeroDivisionError
| IndexError
| OverflowError
| ValueError.

Inductive result (A : Type) : Type :=
| Ok (a : A)
| Raise (e : exn).
Arguments Ok {A} a.
Arguments Raise {A} e.

(** A cell runs against the kernel's state.  When a statement raises, the
    rest of the cell is skipped, and the state is kept as it was at the
    point of failure: nothing in the notebooks catches an exception. *)
Definition Nb (W A : Type) : Type := W -> result A * W.

Definition ret {W A} (a : A) : Nb W A := fun s => (Ok a, s).

Definition bind {W A B} (m : Nb W A) (k : A -> Nb W B) : Nb W B :=
  fun s =>
    match m s with
    | (Ok a, s') => k a s'
    | (Raise e, s') => (Raise e, s')
    end.

Definition lift {W A} (r : result A) : Nb W A := fun s => (r, s).
Definition modify {W} (f : W -> W) : Nb W unit := fun s => (Ok tt, f s).

Declare Scope nb_scope.
Delimit Scope nb_scope with nb.
Bind Scope nb_scope with Nb.
Notation "x <- m ;; k" := (bind m (fun x => k))
  (at level 100, m at next level, k at level 200, right associativity,
   only parsing) : nb_scope.
Notation "m ;; k" := (bind m (fun _ => k))
  (at level 100, k at level 200, right associativity, only parsing) : nb_scope.

(** [for i in range(n): body(i)], counting upwards from [first]. *)
Fixpoint for_from {W} (first n : nat) (body : nat -> Nb W unit) : Nb W unit :=
  match n with
  | O => ret tt
  | S n' => (body first ;; for_from (S first) n' body)%nb
  end.

Definition for_range {W} (n : nat) (body : nat -> Nb W unit) : Nb W unit :=
  for_from 0 n body.

(** [for x in xs: body(x)]. *)
Fixpoint for_each {W A} (xs : list A) (body : A -> Nb W unit) : Nb W unit :=
  match xs with
  | [] => ret tt
  | x :: xs' => (body x ;; for_each xs' body)%nb
  end.

Definition when {W} (b : bool) (m : Nb W unit) : Nb W unit :=
  if b then m else ret tt.

(* ================================================================== *)
(** * 2. Numbers *)
(* ================================================================== *)

(** The arithmetic the cells use.  [div] is the arithmetic quotient;
    the Python operators [/] and [//], which raise on a zero divisor,
    are [truediv] and [floordiv] below. *)
Class PyNum (T : Type) : Type := {
  of_int : Z -> T;              (* int -> float conversion *)
  add : T -> T -> T;
  sub : T -> T -> T;
  mul : T -> T -> T;
  div : T -> T -> T;
  eq_zero : T -> bool;          (* x == 0 *)
  floor_quot : T -> T -> T;     (* x // y for y != 0 *)
  to_int : T -> result Z        (* int(x) *)
}.

Section PythonOperators.
Context {T : Type} `{PyNum T}.

(** A decimal literal [n/d], for instance [0.0001] as [decimal 1 10000]:
    the quotient of two exactly representable integers. *)
Definition decimal (n d : Z) : T := div (of_int n) (of_int d).

(** Modelled from the spec: the type of [mg.dx] is declared in the grid
    library, which is not part of the repository; section 7 of the
    specification lets a degenerate timestep surface as an error raised
    by the host, which is Python's [float.__truediv__]:
    [ZeroDivisionError] on a zero divisor. *)
Definition truediv (x y : T) : result T :=
  if eq_zero y then Raise ZeroDivisionError else Ok (div x y).

Definition floordiv (x y : T) : result T :=
  if eq_zero y then Raise ZeroDivisionError else Ok (floor_quot x y).

(** [np.power(x, 2)]. *)
Definition power2 (x : T) : T := mul x x.
End PythonOperators.

(** ** 2.1 Binary64 *)

Module B64.
Definition prec : Z := 53.
Definition emax : Z := 1024.

Abbreviation binary64 := spec_float.

(** [float(n)]: the nearest binary64 number, ties to even.  (Beyond the
    range of binary64 Python raises [OverflowError]; the cells convert
    small integers only.) *)
Definition of_Z (n : Z) : binary64 := binary_normalize prec emax n 0 false.

Definition pos_zero : binary64 := S754_zero false.
Definition one : binary64 := of_Z 1.
Definition onehalf : binary64 := SFdiv prec emax (of_Z 1) (of_Z 2).

Definition is_zero (x : binary64) : bool :=
  match x with S754_zero _ => true | _ => false end.

Definition is_neg (x : binary64) : bool := SFltb x pos_zero.

(** The integer [m * 2^e] scaled to the exponent [e0 <= e]. *)
Definition scaled (m : positive) (e e0 : Z) : Z := Z.pos m * 2 ^ (e - e0).

(** C's [fmod]: the result is exact and has the sign of [x]. *)
Definition fmod (x y : binary64) : binary64 :=
  match x, y with
  | S754_nan, _ | _, S754_nan => S754_nan
  | S754_infinity _, _ => S754_nan
  | _, S754_zero _ => S754_nan
  | S754_zero _, _ => x
  | S754_finite _ _ _, S754_infinity _ => x
  | S754_finite sx mx ex, S754_finite _ my ey =>
      let e0 := Z.min ex ey in
      let r := Z.rem (scaled mx ex e0) (scaled my ey e0) in
      binary_normalize prec emax (cond_Zopp sx r) e0 sx
  end.

(** C's [floor]. *)
Definition floor (x : binary64) : binary64 :=
  match x with
  | S754_finite s m e =>
      if (0 <=? e)%Z then x
      else binary_normalize prec emax (cond_Zopp s (Z.pos m) / 2 ^ (- e)) 0 s
  | _ => x
  end.

(** C's [copysign(0.0, x)]. *)
Definition zero_with_sign_of (x : binary64) : binary64 :=
  match x with
  | S754_zero s | S754_infinity s | S754_finite s _ _ => S754_zero s
  | S754_nan => S754_zero false
  end.

(** CPython's [float_floor_div] for a non-zero divisor: the quotient is
    recovered from the exact remainder and snapped to an integer. *)
Definition floor_div (vx wx : binary64) : binary64 :=
  let md := fmod vx wx in
  let dv := SFdiv prec emax (SFsub prec emax vx md) wx in
  let dv :=
    if is_zero md then dv
    else if negb (Bool.eqb (is_neg wx) (is_neg md))
         then SFsub prec emax dv one else dv in
  if is_zero dv then zero_with_sign_of (SFdiv prec emax vx wx)
  else
    let fl := floor dv in
    if SFltb onehalf (SFsub prec emax dv fl)
    then SFadd prec emax fl one else fl.

(** [int(x)]: truncation towards zero. *)
Definition trunc (x : binary64) : result Z :=
  match x with
  | S754_nan => Raise ValueError
  | S754_infinity _ => Raise OverflowError
  | S754_zero _ => Ok 0%Z
  | S754_finite s m e =>
      Ok (cond_Zopp s (if (0 <=? e)%Z then Z.pos m * 2 ^ e
                       else Z.pos m / 2 ^ (- e)))%Z
  end.

#[global] Instance num : PyNum binary64 := {|
  of_int := of_Z;
  add := SFadd prec emax;
  sub := SFsub prec emax;
  mul := SFmul prec emax;
  div := SFdiv prec emax;
  eq_zero := is_zero;
  floor_quot := floor_div;
  to_int := trunc
|}.

(** [x < y] on floats. *)
Definition lt (x y : binary64) : Prop := SFltb x y = true.
End B64.

(** ** 2.2 Real numbers *)

Module Ideal.
Abbreviation real := R.

Definition is_zero (x : R) : bool := if Req_dec_T x 0 then true else false.

Definition floor_div (x y : R) : R := IZR (Int_part (x / y)).

Definition trunc (x : R) : result Z :=
  Ok (if Rle_dec 0 x then Int_part x else (- Int_part (- x))%Z).

#[global] Instance num : PyNum real := {|
  of_int := IZR;
  add := Rplus;
  sub := Rminus;
  mul := Rmult;
  div := Rdiv;
  eq_zero := is_zero;
  floor_quot := floor_div;
  to_int := trunc
|}.
End Ideal.

(* ================================================================== *)
(** * 3. Grid, fields and in-place array updates *)
(* ================================================================== *)

(** Modelled from the spec: the grid class belongs to the external
    library; section 3 of the specification gives each node one of three
    classes, fixed for the whole run, and calls every node that is not a
    core node a boundary node. *)
Inductive NodeStatus : Set := Core | FixedValue | Closed.

#[global] Instance NodeStatus_eq_dec : EqDecision NodeStatus.
Proof. solve_decision. Defined.

(** [mg.core_nodes]: the ids of the core nodes, in increasing order. *)
Definition core_nodes (status : list NodeStatus) : list nat :=
  filter (fun i => status !! i = Some Core) (seq 0 (length status)).

Definition is_core_node (status : list NodeStatus) (i : nat) : Prop :=
  status !! i = Some Core.

Definition is_boundary_node (status : list NodeStatus) (i : nat) : Prop :=
  exists s, status !! i = Some s /\ s <> Core.

Section Arrays.
Context {T : Type}.

(** [z[idx]] with an integer index array: a fresh array of the selected
    entries; [IndexError] when an index is out of bounds. *)
Fixpoint take_at (z : list T) (idx : list nat) : result (list T) :=
  match idx with
  | [] => Ok []
  | i :: idx' =>
      match z !! i with
      | None => Raise IndexError
      | Some x =>
          match take_at z idx' with
          | Ok xs => Ok (x :: xs)
          | Raise e => Raise e
          end
      end
  end.

(** [z[idx] = vals]: the entries are written one after the other. *)
Fixpoint put_at (z : list T) (idx : list nat) (vals : list T) : list T :=
  match idx, vals with
  | i :: idx', v :: vals' => put_at (<[i := v]> z) idx' vals'
  | _, _ => z
  end.

(** [z[idx] += incr]: NumPy reads [z[idx]], adds, and writes back. *)
Definition iadd_at (plus : T -> T -> T)
    (z : list T) (idx : list nat) (incr : list T) : result (list T) :=
  match take_at z idx with
  | Ok xs => Ok (put_at z idx (zip_with plus xs incr))
  | Raise e => Raise e
  end.
End Arrays.

(** The named node fields of the grid.  The notebooks only touch
    ["topographic__elevation"] themselves; the other fields (drainage area,
    steepest slope, ...) and whatever the components keep between calls
    are [derived]. *)
Record Fields (T Aux : Type) : Type := {
  elevation : list T;
  derived : Aux
}.
Arguments elevation {T Aux} _.
Arguments derived {T Aux} _.

(** What a loop iteration does that is visible from outside the loop
    body: calls into the components, the clock update, and output. *)
Inductive Event (DT : Type) : Type :=
| EvUplift
| EvDiffuse (dt : DT)
| EvRoute
| EvErode (dt : DT)
| EvTick (dt : DT)
| EvShow.
Arguments EvUplift {DT}.
Arguments EvDiffuse {DT} dt.
Arguments EvRoute {DT}.
Arguments EvErode {DT} dt.
Arguments EvTick {DT} dt.
Arguments EvShow {DT}.

(** The kernel state a time loop works on: the grid fields, the run clock
    ([time_counter], [total_time]) and the log of events so far. *)
Record World (T Aux DT : Type) : Type := {
  fields : Fields T Aux;
  clock : DT;
  trace : list (Event DT)
}.
Arguments fields {T Aux DT} _.
Arguments clock {T Aux DT} _.
Arguments trace {T Aux DT} _.

Section Actions.
Context {T Aux DT : Type}.
#[local] Abbreviation world := (World T Aux DT).

Definition with_elevation (z : list T) (f : Fields T Aux) : Fields T Aux :=
  {| elevation := z; derived := derived f |}.

(** [z[idx] += incr] on the elevation field. *)
Definition uplift_at (plus : T -> T -> T) (idx : list nat) (incr : list T)
  : Nb world unit :=
  fun w =>
    match iadd_at plus (elevation (fields w)) idx incr with
    | Ok z' =>
        (Ok tt, {| fields := with_elevation z' (fields w);
                   clock := clock w;
                   trace := trace w ++ [EvUplift] |})
    | Raise e => (Raise e, w)
    end.

(** [component.run_one_step(...)]: the component rewrites the fields. *)
Definition call (step : Fields T Aux -> Fields T Aux) (ev : Event DT)
  : Nb world unit :=
  modify (fun w => {| fields := step (fields w);
                      clock := clock w;
                      trace := trace w ++ [ev] |}).

(** [clock += dt]. *)
Definition tick (plus : DT -> DT -> DT) (dt : DT) : Nb world unit :=
  modify (fun w => {| fields := fields w;
                      clock := plus (clock w) dt;
                      trace := trace w ++ [EvTick dt] |}).

(** [clock = c]. *)
Definition set_clock (c : DT) : Nb world unit :=
  modify (fun w => {| fields := fields w; clock := c; trace := trace w |}).

(** Plotting and printing read the state and write to the output area. *)
Definition show : Nb world unit :=
  modify (fun w => {| fields := fields w;
                      clock := clock w;
                      trace := trace w ++ [EvShow] |}).
End Actions.

(** Modelled from the spec: [RasterModelGrid((rows, cols), dx)] followed by
    [set_closed_boundaries_at_grid_edges(right, top, left, bottom)] of the
    external library.  Node [r * cols + c] sits in row [r], column [c];
    perimeter nodes are boundary nodes, closed on the edges named closed and
    open (fixed value) on the others; all other nodes are core nodes. *)
Definition raster_status (rows cols : nat)
    (right_closed top_closed left_closed bottom_closed : bool)
  : list NodeStatus :=
  map (fun i =>
         let r := i / cols in
         let c := i mod cols in
         let on_right := c =? cols - 1 in
         let on_top := r =? rows - 1 in
         let on_left := c =? 0 in
         let on_bottom := r =? 0 in
         if (on_right && right_closed) || (on_top && top_closed)
            || (on_left && left_closed) || (on_bottom && bottom_closed)
         then Closed
         else if on_right || on_top || on_left || on_bottom then FixedValue
         else Core)
      (seq 0 (rows * cols)).

(* ================================================================== *)
(** * 4. The hillslope notebooks *)
(* ================================================================== *)

(** [hillslope_nonlineardiffusion_class_notebook.ipynb] and the
    linear-diffusion notebook have the same Code Blocks 4, 5 and 7; they
    differ in the component ([nonlin_diffuse] or [lin_diffuse]) and in what
    the plotting branch draws. *)
Module Hillslope.
Section Notebook.
Context {T : Type} `{PyNum T} {Aux : Type}.

(** [mg]'s node classes after Code Block 2. *)
Variable status : list NodeStatus.
(** [nonlin_diffuse.run_one_step] or [lin_diffuse.run_one_step]. *)
Variable diffuse : T -> Fields T Aux -> Fields T Aux.

#[local] Abbreviation world := (World T Aux T).

(** The names Code Block 4 binds and Code Block 7 reads. *)
Record Params : Type := {
  dt : T;
  nt : Z;
  uplift_per_step : T
}.

(** [dt = 0.5 * mg.dx * mg.dx / D] *)
Definition timestep (dx D : T) : result T :=
  truediv (mul (mul (decimal 5 10) dx) dx) D.

(** [nt = int(runtime // dt)] *)
Definition number_of_steps (runtime : Z) (dt : T) : result Z :=
  match floordiv (of_int runtime) dt with
  | Ok q => to_int q
  | Raise e => Raise e
  end.

(** Code Block 4. *)
Definition block4 (dx D uplift_rate : T) (runtime : Z) : Nb world Params :=
  (dt <- lift (timestep dx D) ;;
   nt <- lift (number_of_steps runtime dt) ;;
   set_clock (of_int 0) ;;
   ret {| dt := dt; nt := nt; uplift_per_step := mul uplift_rate dt |})%nb.

(** Code Block 5: [divide_loc] and [half_width] are the same expression,
    [(mg.number_of_node_rows * mg.dx - mg.dx) / 2]. *)
Definition divide_loc (rows : Z) (dx : T) : T :=
  div (sub (mul (of_int rows) dx) dx) (of_int 2).

Definition half_width (rows : Z) (dx : T) : T :=
  div (sub (mul (of_int rows) dx) dx) (of_int 2).

(** One entry of [zs], for the entry [y] of [ys]. *)
Definition zs_at (rows : Z) (dx uplift_rate D y : T) : result T :=
  match truediv uplift_rate (mul (of_int 2) D) with
  | Ok c =>
      Ok (mul c (sub (power2 (half_width rows dx))
                     (power2 (sub y (divide_loc rows dx)))))
  | Raise e => Raise e
  end.

(** [mg["node"]["topographic__elevation"][mg.core_nodes] += uplift_per_step];
    the scalar is broadcast over the selected entries. *)
Definition uplift (u : T) : Nb world unit :=
  uplift_at add (core_nodes status)
            (replicate (length (core_nodes status)) u).

(** The body of the loop of Code Block 7, for the loop variable [i]. *)
Definition body (p : Params) (i : nat) : Nb world unit :=
  (uplift (uplift_per_step p) ;;
   call (diffuse (dt p)) (EvDiffuse (dt p)) ;;
   tick add (dt p) ;;
   when (Z.of_nat i =? nt p / 2)%Z show)%nb.

(** Code Block 7: [for i in range(nt): ...]. *)
Definition block7 (p : Params) : Nb world unit :=
  for_range (Z.to_nat (nt p)) (body p).

(** Code Block 4 followed by Code Block 7. *)
Definition run (dx D uplift_rate : T) (runtime : Z) : Nb world unit :=
  (p <- block4 dx D uplift_rate runtime ;; block7 p)%nb.
End Notebook.
End Hillslope.

(* ================================================================== *)
(** * 5. The channels-and-hillslopes notebook *)
(* ================================================================== *)

Module Channels.
Section Notebook.
Context {T : Type} `{PyNum T} {Aux Rng : Type}.

(** NumPy's global generator: [np.random.seed] and [np.random.rand]. *)
Variable np_seed : Z -> Rng.
Variable np_rand : nat -> Rng -> list T * Rng.
(** [mg1.set_watershed_boundary_condition]: the node classes, which the
    library chooses from the elevations. *)
Variable watershed_status : list T -> list NodeStatus.
(** [ld.run_one_step], [frr.run_one_step] and [spr.run_one_step]. *)
Variable ld : Z -> Fields T Aux -> Fields T Aux.
Variable frr : Fields T Aux -> Fields T Aux.
Variable spr : Z -> Fields T Aux -> Fields T Aux.

#[local] Abbreviation world := (World T Aux Z).

(** Code Block 3: the generator is seeded with 56 whatever its state was;
    [z1] starts as zeros and the noise is added to it in place. *)
Definition block3 (number_of_nodes : nat) (ambient : Rng) : list T * Rng :=
  let seeded := np_seed 56 in
  let drawn := np_rand number_of_nodes seeded in
  let mg1_noise := map (fun x => div x (of_int 1000)) (fst drawn) in
  let z1 := zip_with add (replicate number_of_nodes (of_int 0)) mg1_noise in
  (z1, snd drawn).

(** Code Block 6: [uplift_rate = np.ones(mg1.number_of_nodes) * 0.0001]. *)
Definition block6 (number_of_nodes : nat) (rate : T) : list T :=
  map (fun o => mul o rate) (replicate number_of_nodes (of_int 1)).

(** [z1[mg1.core_nodes] += uplift_rate[mg1.core_nodes] * dt] *)
Definition uplift (status : list NodeStatus) (uplift_rate : list T) (dt : Z)
  : Nb world unit :=
  (rates <- lift (take_at uplift_rate (core_nodes status)) ;;
   uplift_at add (core_nodes status)
             (map (fun r => mul r (of_int dt)) rates))%nb.

(** The body of the loop of Code Block 7. *)
Definition body (status : list NodeStatus) (uplift_rate : list T) (dt : Z)
  : Nb world unit :=
  (uplift status uplift_rate dt ;;
   call (ld dt) (EvDiffuse dt) ;;
   call frr EvRoute ;;
   call (spr dt) (EvErode dt) ;;
   tick Z.add dt ;;
   show)%nb.

(** Code Block 7: [for ti in t: ...]; the loop variable is not used. *)
Definition block7 (status : list NodeStatus) (uplift_rate : list T) (dt : Z)
    (t : list T) : Nb world unit :=
  for_each t (fun _ => body status uplift_rate dt).

(** Code Blocks 3, 4, 6 and 7 in order, on a fresh kernel whose generator
    is in the state [ambient]; [t] is [np.arange(0, tmax, dt)]. *)
Definition run (number_of_nodes : nat) (rate : T) (dt : Z) (t : list T)
    (aux0 : Aux) (ambient : Rng) : result unit * world :=
  let z1 := fst (block3 number_of_nodes ambient) in
  let status := watershed_status z1 in
  block7 status (block6 number_of_nodes rate) dt t
         {| fields := {| elevation := z1; derived := aux0 |};
            clock := 0%Z;
            trace := [] |}.
End Notebook.
End Channels.

(* ================================================================== *)
(** * 6. Notions used to state the properties *)
(* ================================================================== *)

(** Two kernel states with the same fields and the same clock; their
    event logs may differ. *)
Definition same_state {T Aux DT} (w1 w2 : World T Aux DT) : Prop :=
  fields w1 = fields w2 /\ clock w1 = clock w2.

(** A component that leaves the elevation field as it found it. *)
Definition keeps_elevation {T Aux} (step : Fields T Aux -> Fields T Aux)
  : Prop :=
  forall f, elevation (step f) = elevation f.

(** [x + u + u + ... + u], one addition per iteration. *)
Definition accumulate {T} (plus : T -> T -> T) (k : nat) (u x : T) : T :=
  Nat.iter k (fun acc => plus acc u) x.

(** The same parameters with another iteration count. *)
Definition with_nt {T} (p : Hillslope.Params (T := T)) (k : nat)
  : Hillslope.Params (T := T) :=
  {| Hillslope.dt := Hillslope.dt p;
     Hillslope.nt := Z.of_nat k;
     Hillslope.uplift_per_step := Hillslope.uplift_per_step p |}.

(** The events of one hillslope iteration; the plot is drawn in the
    iteration whose index is [nt // 2]. *)
Definition hillslope_events {T} (p : Hillslope.Params (T := T)) (i : nat)
  : list (Event T) :=
  [EvUplift; EvDiffuse (Hillslope.dt p); EvTick (Hillslope.dt p)]
  ++ (if (Z.of_nat i =? Hillslope.nt p / 2)%Z then [EvShow] else []).

(** The events of one channels iteration. *)
Definition channels_events (dt : Z) : list (Event Z) :=
  [EvUplift; EvDiffuse dt; EvRoute; EvErode dt; EvTick dt; EvShow].

(** The exact value of a finite binary64 number, as a fraction
    [numerator / 2^scale]. *)
Definition exact_value (x : B64.binary64) : option (Z * Z) :=
  match x with
  | S754_zero _ => Some (0, 0)%Z
  | S754_finite s m e =>
      Some (if (0 <=? e)%Z then (cond_Zopp s (Z.pos m) * 2 ^ e, 0)%Z
            else (cond_Zopp s (Z.pos m), - e)%Z)
  | _ => None
  end.

(** [a / 2^sa = b / 2^sb] on such fractions. *)
Definition same_fraction (a b : Z * Z) : Prop :=
  (fst a * 2 ^ snd b = fst b * 2 ^ snd a)%Z.

Definition fraction_lt (a b : Z * Z) : Prop :=
  (fst a * 2 ^ snd b < fst b * 2 ^ snd a)%Z.

Definition fraction_mul (a b : Z * Z) : Z * Z :=
  (fst a * fst b, snd a + snd b)%Z.

Definition fraction_of_Z (n : Z) : Z * Z := (n, 0%Z).

(** A component that keeps the shape of the elevation array, as any code
    that updates the array in place does. *)
Definition keeps_shape {T Aux} (step : Fields T Aux -> Fields T Aux) : Prop :=
  forall f, length (elevation (step f)) = length (elevation f).

(** [dt] divides [runtime] exactly: [runtime = n * dt] for an integer [n],
    with [dt] given as a fraction. *)
Definition divides_exactly (dt : Z * Z) (runtime : Z) : Prop :=
  exists n : Z, same_fraction (fraction_mul (fraction_of_Z n) dt)
                              (fraction_of_Z runtime).

(** ** The steady-state profile as the specification writes it *)

Section SpecProfile.
Context {T : Type} `{PyNum T}.

(** The length of the domain along the transport direction,
    [L = number_of_node_rows * dx - dx]. *)
Definition domain_length (rows : Z) (dx : T) : T :=
  sub (mul (of_int rows) dx) dx.

(** Section 8 of the specification:
    [z(y) = (U/2D) * (L^2/4 - (y - L/2)^2)]. *)
Definition parabolic_profile (U D L y : T) : T :=
  mul (div U (mul (of_int 2) D))
      (sub (div (power2 L) (of_int 4))
           (power2 (sub y (div L (of_int 2))))).
End SpecProfile.

(** ** Mass balance over the core nodes, in exact arithmetic *)






(** ** Concrete configurations *)

Module Sample.
(** The grid of the hillslope notebooks: 41 rows, 5 columns, the east and
    west edges closed. *)
Definition hillslope_grid : list NodeStatus :=
  raster_status 41 5 true false true false.

(** A grid of 3 rows and 3 columns with the same boundary conditions: one
    core node, node 4, between the open nodes 1 and 7 and the closed nodes
    3 and 5. *)
Definition small_grid : list NodeStatus :=
  raster_status 3 3 true false true false.

(** A component that does nothing. *)
Definition idle {T Aux} (f : Fields T Aux) : Fields T Aux := f.

(** A fresh kernel with an all-zero elevation field on [n] nodes. *)
Definition flat {T} `{PyNum T} {DT} (n : nat) (c : DT) : World T unit DT :=
  {| fields := {| elevation := replicate n (of_int 0); derived := tt |};
     clock := c;
     trace := [] |}.

(** The values of the hillslope notebooks' Code Blocks 2 to 4. *)
Definition dx : B64.binary64 := of_int 5.
Definition D : B64.binary64 := decimal 1 100.
Definition uplift_rate : B64.binary64 := decimal 1 10000.
Definition runtime : Z := 1000000.


(** [np.arange(0, 10000, 1000)]: ten time steps of the channels loop. *)
Definition ten_steps : list B64.binary64 :=
  map (fun i => of_int (1000 * Z.of_nat i)) (seq 0 10).

(** Another value for [D] in Code Block 3, as the exercises ask for. *)
Definition D_0_017 : B64.binary64 := decimal 17 1000.

(** A pile of height 4 on the core node of the small grid, and parameters
    with [dt = 1] and an uplift of 1 per step. *)
Definition pile : World R unit R :=
  {| fields := {| elevation := [0; 0; 0; 0; 4; 0; 0; 0; 0]%R;
                  derived := tt |};
     clock := 0%R;
     trace := [] |}.


(** Parameters of a short hillslope run on binary64: [dt = 1000.0],
    [uplift_per_step = 0.0001 * 1000.0]. *)
Definition short_run : Hillslope.Params (T := B64.binary64) :=
  {| Hillslope.dt := of_int 1000;
     Hillslope.nt := 10%Z;
     Hillslope.uplift_per_step := mul uplift_rate (of_int 1000) |}.

(** The flat kernel after something was plotted. *)
Definition flat_after_plot : World B64.binary64 unit B64.binary64 :=
  {| fields := fields (flat 9 B64.pos_zero);
     clock := B64.pos_zero;
     trace := [EvShow] |}.


End Sample.

(** ** Notions for the properties of sections 20 to 26 *)

(** The events of [k] iterations of the hillslope loop in which nothing is
    plotted. *)
Definition rounds {T} (p : Hillslope.Params (T := T)) (k : nat)
  : list (Event T) :=
  concat (replicate k [EvUplift; EvDiffuse (Hillslope.dt p);
                       EvTick (Hillslope.dt p)]).

(** A component that leaves the elevation of every boundary node as it
    found it. *)
Definition keeps_boundary {T Aux} (status : list NodeStatus)
    (step : Fields T Aux -> Fields T Aux) : Prop :=
  forall f i, is_boundary_node status i ->
              elevation (step f) !! i = elevation f !! i.

(** The binary64 number [n * 2^q], for an integer [n]. *)
Definition dyadic (q n : Z) : B64.binary64 :=
  binary_normalize B64.prec B64.emax n q false.

(** The analytical peak, [(U / (2 * D)) * half_width^2]. *)
Definition analytical_peak {T} `{PyNum T} (rows : Z) (dx U D : T) : T :=
  mul (div U (mul (of_int 2) D)) (power2 (Hillslope.half_width rows dx)).

Definition is_finite (x : B64.binary64) : bool :=
  match x with
  | S754_zero _ | S754_finite _ _ _ => true
  | _ => false
  end.

(** The sign bit of a binary64 number; a NaN counts as unsigned. *)
Definition sign_bit (x : B64.binary64) : bool :=
  match x with
  | S754_zero s | S754_infinity s | S754_finite s _ _ => s
  | S754_nan => false
  end.

(* ================================================================== *)
(** * 7. Binary64 against CPython *)
(* ================================================================== *)

(** The values CPython prints for the same expressions:
    [0.0001.hex()] is [0x1.a36e2eb1c432dp-14], [1 // 0.1] is [9.0],
    [-7.5 // 2] is [-4.0], [float(2**53 + 1)] is [2.0**53],
    [int(-2.5)] is [-2], and [0.1 + 0.2] is [0.30000000000000004]. *)
Example b64_literal_0_0001 :
  decimal 1 10000 = S754_finite false 0x1a36e2eb1c432d (-66).
Proof. vm_compute. reflexivity. Qed.

Example b64_floordiv_1_by_0_1 :
  floordiv (of_int 1) (decimal 1 10) = Ok (B64.of_Z 9).
Proof. vm_compute. reflexivity. Qed.

Example b64_floordiv_negative :
  floordiv (SFopp (decimal 75 10)) (of_int 2) = Ok (B64.of_Z (-4)).
Proof. vm_compute. reflexivity. Qed.

Example b64_floordiv_by_zero :
  floordiv (B64.of_Z 1) B64.pos_zero = Raise ZeroDivisionError.
Proof. reflexivity. Qed.

Example b64_of_int_rounds_to_even :
  B64.of_Z (2 ^ 53 + 1) = B64.of_Z (2 ^ 53).
Proof. vm_compute. reflexivity. Qed.

Example b64_int_truncates :
  to_int (SFopp (decimal 25 10)) = Ok (-2)%Z.
Proof. vm_compute. reflexivity. Qed.

Example b64_one_tenth_plus_two_tenths :
  add (decimal 1 10) (decimal 2 10)
  = S754_finite false 0x13333333333334 (-54).
Proof. vm_compute. reflexivity. Qed.

(** Code Block 4 with the notebooks' values: [dt = 1250.0], [nt = 800],
    [uplift_per_step = 0.125]. *)
Example b64_default_timestep :
  Hillslope.timestep Sample.dx Sample.D = Ok (B64.of_Z 1250)
  /\ Hillslope.number_of_steps Sample.runtime (B64.of_Z 1250) = Ok 800%Z
  /\ mul Sample.uplift_rate (B64.of_Z 1250) = decimal 125 1000.
Proof. vm_compute. repeat split; reflexivity. Qed.

(* ================================================================== *)
(** * 8. The kernel monad and the loops *)
(* ================================================================== *)

(** A loop of [n + m] rounds is a loop of [n] rounds followed, when it did
    not raise, by the remaining [m] rounds. *)
Lemma for_from_add {W} (body : nat -> Nb W unit) n m :
  forall first w,
    for_from first (n + m) body w
    = bind (for_from first n body) (fun _ => for_from (first + n) m body) w.
Proof.
  induction n as [|n IH]; intros first w.
  - cbn. rewrite Nat.add_0_r. reflexivity.
  - cbn [Nat.add for_from]. unfold bind.
    destruct (body first w) as [[[]|e] w1]; [|reflexivity].
    rewrite IH. unfold bind. rewrite Nat.add_succ_r. reflexivity.
Qed.

Lemma for_each_as_range {W A} (body : Nb W unit) (xs : list A) :
  forall first w,
    for_each xs (fun _ => body) w
    = for_from first (length xs) (fun _ => body) w.
Proof.
  induction xs as [|x xs IH]; intros first w; [reflexivity|].
  cbn [for_each length for_from]. unfold bind.
  destruct (body w) as [[[]|e] w1]; [|reflexivity].
  apply IH.
Qed.

Section LoopSimulation.
Context {W : Type}.
Variable related : W -> W -> Prop.
Variables body1 body2 : nat -> Nb W unit.

(** The two bodies do the same thing on related states, whatever the
    values of their loop variables. *)
Hypothesis body_related :
  forall i1 i2 w1 w2,
    related w1 w2 ->
    fst (body1 i1 w1) = fst (body2 i2 w2)
    /\ related (snd (body1 i1 w1)) (snd (body2 i2 w2)).

Lemma for_from_related n :
  forall a1 a2 w1 w2,
    related w1 w2 ->
    fst (for_from a1 n body1 w1) = fst (for_from a2 n body2 w2)
    /\ related (snd (for_from a1 n body1 w1)) (snd (for_from a2 n body2 w2)).
Proof.
  induction n as [|n IH]; intros a1 a2 w1 w2 Hr; [split; [reflexivity|exact Hr]|].
  cbn [for_from]. unfold bind.
  destruct (body_related a1 a2 w1 w2 Hr) as [Hres Hst].
  destruct (body1 a1 w1) as [[[]|e1] v1], (body2 a2 w2) as [[[]|e2] v2];
    cbn in Hres, Hst; try discriminate.
  - apply IH. exact Hst.
  - split; [exact Hres|exact Hst].
Qed.

(** A body that raises leaves the state as it found it. *)
Hypothesis body1_raise_keeps :
  forall i w e v, body1 i w = (Raise e, v) -> v = w.

(** When the loop stops on an exception, the state it stops in makes the
    body raise that exception again. *)
Lemma for_from_raise_again n :
  forall a w e v,
    for_from a n body1 w = (Raise e, v) ->
    exists i, body1 i v = (Raise e, v).
Proof.
  induction n as [|n IH]; intros a w e v E; [discriminate|].
  cbn [for_from] in E. unfold bind in E.
  destruct (body1 a w) as [[[]|e1] w1] eqn:Eb.
  - apply (IH _ _ _ _ E).
  - injection E as -> ->. exists a.
    rewrite (body1_raise_keeps _ _ _ _ Eb) in Eb |- *. exact Eb.
Qed.
End LoopSimulation.

(* ================================================================== *)
(** * 9. Index arrays *)
(* ================================================================== *)

Lemma core_nodes_spec (status : list NodeStatus) (i : nat) :
  i ∈ core_nodes status <-> is_core_node status i.
Proof.
  unfold core_nodes, is_core_node. rewrite list_elem_of_filter, elem_of_seq.
  split; [tauto|]. intros E. split; [exact E|].
  apply lookup_lt_Some in E. lia.
Qed.

Lemma core_nodes_NoDup (status : list NodeStatus) : NoDup (core_nodes status).
Proof. apply list.NoDup_filter, NoDup_seq. Qed.

Lemma core_nodes_lt (status : list NodeStatus) (i : nat) :
  i ∈ core_nodes status -> i < length status.
Proof.
  rewrite core_nodes_spec. unfold is_core_node. apply lookup_lt_Some.
Qed.

Lemma boundary_not_core (status : list NodeStatus) (i : nat) :
  is_boundary_node status i -> i ∉ core_nodes status.
Proof.
  intros (s & E & Hs). rewrite core_nodes_spec. unfold is_core_node.
  congruence.
Qed.

(** Every node of the grid is a core node or a boundary node, never both. *)
Lemma core_or_boundary (status : list NodeStatus) (i : nat) :
  i < length status ->
  (is_core_node status i /\ ~ is_boundary_node status i)
  \/ (is_boundary_node status i /\ ~ is_core_node status i).
Proof.
  intros Hi. destruct (lookup_lt_is_Some_2 status i Hi) as [s E].
  unfold is_core_node, is_boundary_node. destruct (decide (s = Core)) as [->|N].
  - left. split; [exact E|]. intros (s' & E' & N'). congruence.
  - right. split; [eauto|]. congruence.
Qed.

Section ArrayFacts.
Context {T : Type}.
Implicit Types (z xs vals incr : list T) (idx : list nat).

Lemma take_at_Forall2 z idx xs :
  take_at z idx = Ok xs -> Forall2 (fun i x => z !! i = Some x) idx xs.
Proof.
  revert xs. induction idx as [|i idx IH]; intros xs E; cbn in E.
  - injection E as <-. constructor.
  - destruct (z !! i) as [x|] eqn:Ei; [|discriminate].
    destruct (take_at z idx) as [ys|e]; [|discriminate].
    injection E as <-. constructor; auto.
Qed.

Lemma take_at_in_range z idx :
  (forall i, i ∈ idx -> i < length z) -> exists xs, take_at z idx = Ok xs.
Proof.
  induction idx as [|i idx IH]; intros Hr; cbn.
  - eauto.
  - destruct (lookup_lt_is_Some_2 z i) as [x ->].
    { apply Hr. left. }
    destruct IH as [xs ->]; [|eauto].
    intros j Hj. apply Hr. right. exact Hj.
Qed.

Lemma put_at_length z idx vals : length (put_at z idx vals) = length z.
Proof.
  revert z vals. induction idx as [|i idx IH]; intros z [|v vals]; cbn; auto.
  rewrite IH. apply length_insert.
Qed.

Lemma put_at_other z idx vals j :
  j ∉ idx -> put_at z idx vals !! j = z !! j.
Proof.
  revert z vals. induction idx as [|i idx IH]; intros z [|v vals] Hj; cbn; auto.
  rewrite IH.
  - apply list_lookup_insert_ne. intros ->. apply Hj. left.
  - intros Hin. apply Hj. right. exact Hin.
Qed.

(** With distinct indices, the entry written at position [n] of the index
    array is the one found afterwards. *)
Lemma put_at_written z idx vals n i v :
  NoDup idx -> idx !! n = Some i -> vals !! n = Some v -> i < length z ->
  put_at z idx vals !! i = Some v.
Proof.
  revert z vals n. induction idx as [|i0 idx IH]; intros z vals n Hnd Hi Hv Hlt.
  - discriminate.
  - apply list.NoDup_cons in Hnd as [Hnotin Hnd].
    destruct vals as [|v0 vals]; [destruct n; discriminate|].
    destruct n as [|n]; cbn in Hi, Hv |- *.
    + injection Hi as ->. injection Hv as ->.
      rewrite put_at_other by exact Hnotin.
      apply list_lookup_insert_eq. exact Hlt.
    + apply (IH _ _ n); auto. rewrite length_insert. exact Hlt.
Qed.

Lemma iadd_at_length plus z idx incr z' :
  iadd_at plus z idx incr = Ok z' -> length z' = length z.
Proof.
  unfold iadd_at. destruct (take_at z idx); [|discriminate].
  intros E. injection E as <-. apply put_at_length.
Qed.

Lemma iadd_at_other plus z idx incr z' j :
  iadd_at plus z idx incr = Ok z' -> j ∉ idx -> z' !! j = z !! j.
Proof.
  unfold iadd_at. destruct (take_at z idx); [|discriminate].
  intros E Hj. injection E as <-. apply put_at_other. exact Hj.
Qed.

Lemma iadd_at_in_range plus z idx incr :
  (forall i, i ∈ idx -> i < length z) ->
  exists z', iadd_at plus z idx incr = Ok z'.
Proof.
  intros Hr. unfold iadd_at.
  destruct (take_at_in_range z idx Hr) as [xs ->]. eauto.
Qed.

(** The node at position [n] of the index array receives the increment at
    position [n]. *)
Lemma iadd_at_selected plus z idx incr z' n i v :
  NoDup idx ->
  iadd_at plus z idx incr = Ok z' ->
  idx !! n = Some i -> incr !! n = Some v ->
  z' !! i = (fun x => plus x v) <$> z !! i.
Proof.
  intros Hnd E Hn Hv. unfold iadd_at in E.
  destruct (take_at z idx) as [xs|] eqn:Et; [|discriminate].
  injection E as <-. apply take_at_Forall2 in Et.
  destruct (Forall2_lookup_l _ _ _ _ _ Et Hn) as (x & Hx & Hzi).
  rewrite Hzi. cbn.
  apply (put_at_written _ _ _ n); auto.
  - rewrite lookup_zip_with, Hx, Hv. reflexivity.
  - apply lookup_lt_Some in Hzi. exact Hzi.
Qed.

(** Broadcasting a scalar: every selected node receives [u]. *)
Lemma iadd_at_scalar plus z idx (u : T) z' i :
  NoDup idx ->
  iadd_at plus z idx (replicate (length idx) u) = Ok z' ->
  i ∈ idx ->
  z' !! i = (fun x => plus x u) <$> z !! i.
Proof.
  intros Hnd E Hi. apply list_elem_of_lookup_1 in Hi as [n Hn].
  apply (iadd_at_selected _ _ _ _ _ n i u Hnd E Hn).
  apply lookup_replicate_2. apply lookup_lt_Some in Hn. exact Hn.
Qed.
End ArrayFacts.

(* ================================================================== *)
(** * 10. The uplift step *)
(* ================================================================== *)

Section UpliftFacts.
Context {T : Type} `{PyNum T} {Aux : Type}.
Variable status : list NodeStatus.

Lemma hillslope_uplift_unfold (u : T) (w : World T Aux T) :
  Hillslope.uplift status u w
  = match iadd_at add (elevation (fields w)) (core_nodes status)
                  (replicate (length (core_nodes status)) u) with
    | Ok z' => (Ok tt, {| fields := with_elevation z' (fields w);
                          clock := clock w;
                          trace := trace w ++ [EvUplift] |})
    | Raise e => (Raise e, w)
    end.
Proof. reflexivity. Qed.

Lemma channels_uplift_unfold (uplift_rate : list T) (dt : Z)
    (w : World T Aux Z) :
  Channels.uplift status uplift_rate dt w
  = match take_at uplift_rate (core_nodes status) with
    | Raise e => (Raise e, w)
    | Ok rates =>
        match iadd_at add (elevation (fields w)) (core_nodes status)
                      (map (fun r => mul r (of_int dt)) rates) with
        | Ok z' => (Ok tt, {| fields := with_elevation z' (fields w);
                              clock := clock w;
                              trace := trace w ++ [EvUplift] |})
        | Raise e => (Raise e, w)
        end
    end.
Proof.
  unfold Channels.uplift, bind, lift, uplift_at.
  destruct (take_at uplift_rate (core_nodes status)); reflexivity.
Qed.

(** On a field with one entry per node the hillslope uplift succeeds. *)
Lemma hillslope_uplift_ok (u : T) (w : World T Aux T) :
  length (elevation (fields w)) = length status ->
  exists z',
    iadd_at add (elevation (fields w)) (core_nodes status)
            (replicate (length (core_nodes status)) u) = Ok z'
    /\ length z' = length status
    /\ (forall n, is_core_node status n ->
          z' !! n = (fun x => add x u) <$> elevation (fields w) !! n)
    /\ (forall n, ~ is_core_node status n ->
          z' !! n = elevation (fields w) !! n).
Proof.
  intros Hlen.
  destruct (iadd_at_in_range add (elevation (fields w)) (core_nodes status)
              (replicate (length (core_nodes status)) u)) as [z' E].
  { intros i Hi. rewrite Hlen. apply core_nodes_lt, Hi. }
  exists z'. split; [exact E|]. split; [|split].
  - rewrite (iadd_at_length _ _ _ _ _ E). exact Hlen.
  - intros n Hn. apply (iadd_at_scalar _ _ _ _ _ _ (core_nodes_NoDup status) E).
    apply core_nodes_spec, Hn.
  - intros n Hn. apply (iadd_at_other _ _ _ _ _ _ E).
    rewrite core_nodes_spec. exact Hn.
Qed.

(** So does the channels uplift, when [uplift_rate] has one entry per node
    too. *)
Lemma channels_uplift_ok (uplift_rate : list T) (dt : Z) (w : World T Aux Z) :
  length (elevation (fields w)) = length status ->
  length uplift_rate = length status ->
  exists rates z',
    take_at uplift_rate (core_nodes status) = Ok rates
    /\ iadd_at add (elevation (fields w)) (core_nodes status)
               (map (fun r => mul r (of_int dt)) rates) = Ok z'
    /\ length z' = length status
    /\ (forall n, is_core_node status n ->
          exists x r, elevation (fields w) !! n = Some x
                      /\ uplift_rate !! n = Some r
                      /\ z' !! n = Some (add x (mul r (of_int dt))))
    /\ (forall n, ~ is_core_node status n ->
          z' !! n = elevation (fields w) !! n).
Proof.
  intros Hlen Hrate.
  destruct (take_at_in_range uplift_rate (core_nodes status)) as [rates Er].
  { intros i Hi. rewrite Hrate. apply core_nodes_lt, Hi. }
  destruct (iadd_at_in_range add (elevation (fields w)) (core_nodes status)
              (map (fun r => mul r (of_int dt)) rates)) as [z' E].
  { intros i Hi. rewrite Hlen. apply core_nodes_lt, Hi. }
  exists rates, z'. split; [exact Er|]. split; [exact E|].
  split; [|split].
  - rewrite (iadd_at_length _ _ _ _ _ E). exact Hlen.
  - intros n Hn. apply core_nodes_spec in Hn as Hin.
    apply list_elem_of_lookup_1 in Hin as [k Hk].
    destruct (Forall2_lookup_l _ _ _ _ _ (take_at_Forall2 _ _ _ Er) Hk)
      as (r & Hr & Hrn).
    destruct (lookup_lt_is_Some_2 (elevation (fields w)) n) as [x Hx].
    { rewrite Hlen. apply lookup_lt_Some in Hn. exact Hn. }
    exists x, r. split; [exact Hx|]. split; [exact Hrn|].
    rewrite (iadd_at_selected _ _ _ _ _ k n (mul r (of_int dt))
               (core_nodes_NoDup status) E Hk).
    + rewrite Hx. reflexivity.
    + rewrite list_lookup_fmap, Hr. reflexivity.
  - intros n Hn. apply (iadd_at_other _ _ _ _ _ _ E).
    rewrite core_nodes_spec. exact Hn.
Qed.

(** C3.  The uplift step of an iteration writes elevation entries of core
    nodes only: whatever the state [w] an iteration starts from, the entry
    of every boundary node (fixed-value or closed) is the same after the
    uplift step as before it, in the hillslope loop and in the channels
    loop. *)
Theorem uplift_leaves_boundary_nodes
    (i : nat) (u : T) (wh : World T Aux T)
    (uplift_rate : list T) (dt : Z) (wc : World T Aux Z) :
  is_boundary_node status i ->
  elevation (fields (snd (Hillslope.uplift status u wh))) !! i
  = elevation (fields wh) !! i
  /\ elevation (fields (snd (Channels.uplift status uplift_rate dt wc))) !! i
     = elevation (fields wc) !! i.
Proof.
  intros Hb. apply boundary_not_core in Hb. split.
  - rewrite hillslope_uplift_unfold.
    destruct (iadd_at _ _ _ _) as [z'|e] eqn:E; [|reflexivity].
    cbn. apply (iadd_at_other _ _ _ _ _ _ E Hb).
  - rewrite channels_uplift_unfold.
    destruct (take_at _ _) as [rates|e]; [|reflexivity].
    destruct (iadd_at _ _ _ _) as [z'|e] eqn:E; [|reflexivity].
    cbn. apply (iadd_at_other _ _ _ _ _ _ E Hb).
Qed.
End UpliftFacts.

(* ================================================================== *)
(** * 11. One iteration *)
(* ================================================================== *)

Section IterationFacts.
Context {T : Type} `{PyNum T} {Aux : Type}.
Variable status : list NodeStatus.
Variable diffuse : T -> Fields T Aux -> Fields T Aux.
Variable ld : Z -> Fields T Aux -> Fields T Aux.
Variable frr : Fields T Aux -> Fields T Aux.
Variable spr : Z -> Fields T Aux -> Fields T Aux.

Lemma hillslope_body_unfold (p : Hillslope.Params) (i : nat)
    (w : World T Aux T) :
  Hillslope.body status diffuse p i w
  = match iadd_at add (elevation (fields w)) (core_nodes status)
                  (replicate (length (core_nodes status))
                             (Hillslope.uplift_per_step p)) with
    | Ok z' =>
        (Ok tt,
         {| fields := diffuse (Hillslope.dt p) (with_elevation z' (fields w));
            clock := add (clock w) (Hillslope.dt p);
            trace := trace w ++ hillslope_events p i |})
    | Raise e => (Raise e, w)
    end.
Proof.
  unfold Hillslope.body, hillslope_events.
  unfold bind at 1. rewrite hillslope_uplift_unfold.
  destruct (iadd_at _ _ _ _) as [z'|e]; [|reflexivity].
  unfold bind, call, tick, when, show, modify, ret.
  destruct (Z.of_nat i =? Hillslope.nt p / 2)%Z; cbn;
    rewrite <- ?app_assoc; reflexivity.
Qed.

Lemma channels_body_unfold (uplift_rate : list T) (dt : Z)
    (w : World T Aux Z) :
  Channels.body ld frr spr status uplift_rate dt w
  = match take_at uplift_rate (core_nodes status) with
    | Raise e => (Raise e, w)
    | Ok rates =>
        match iadd_at add (elevation (fields w)) (core_nodes status)
                      (map (fun r => mul r (of_int dt)) rates) with
        | Ok z' =>
            (Ok tt,
             {| fields := spr dt (frr (ld dt (with_elevation z' (fields w))));
                clock := (clock w + dt)%Z;
                trace := trace w ++ channels_events dt |})
        | Raise e => (Raise e, w)
        end
    end.
Proof.
  unfold Channels.body, channels_events.
  unfold bind at 1. rewrite channels_uplift_unfold.
  destruct (take_at _ _) as [rates|e]; [|reflexivity].
  destruct (iadd_at _ _ _ _) as [z'|e]; [|reflexivity].
  unfold bind, call, tick, show, modify. cbn.
  rewrite <- !app_assoc. reflexivity.
Qed.

(** C2.  On a grid whose arrays have one entry per node, every iteration of
    either time loop does these things, in this order, and nothing else to
    the elevation field or the clock: (a) the uplift increment is added to
    the elevation of every core node, all other entries staying as they
    were; (b) the diffusion component is stepped with [dt]; (c) and (d),
    in the channels loop only, flow is routed and the erosion component is
    stepped with [dt]; (e) the clock advances by exactly [dt].  What
    follows (plotting, printing) changes neither the fields nor the
    clock. *)
Theorem iteration_steps_in_order
    (p : Hillslope.Params) (i : nat) (wh : World T Aux T)
    (uplift_rate : list T) (dt : Z) (wc : World T Aux Z) :
  length (elevation (fields wh)) = length status ->
  length (elevation (fields wc)) = length status ->
  length uplift_rate = length status ->
  (exists zh,
      (forall n, is_core_node status n ->
         zh !! n = (fun x => add x (Hillslope.uplift_per_step p))
                     <$> elevation (fields wh) !! n)
      /\ (forall n, ~ is_core_node status n ->
            zh !! n = elevation (fields wh) !! n)
      /\ Hillslope.body status diffuse p i wh
         = (Ok tt,
            {| fields := diffuse (Hillslope.dt p)
                                 (with_elevation zh (fields wh));
               clock := add (clock wh) (Hillslope.dt p);
               trace := trace wh ++ hillslope_events p i |}))
  /\ (exists zc,
         (forall n, is_core_node status n ->
            exists x r, elevation (fields wc) !! n = Some x
                        /\ uplift_rate !! n = Some r
                        /\ zc !! n = Some (add x (mul r (of_int dt))))
         /\ (forall n, ~ is_core_node status n ->
               zc !! n = elevation (fields wc) !! n)
         /\ Channels.body ld frr spr status uplift_rate dt wc
            = (Ok tt,
               {| fields := spr dt (frr (ld dt (with_elevation zc (fields wc))));
                  clock := (clock wc + dt)%Z;
                  trace := trace wc ++ channels_events dt |})).
Proof.
  intros Hh Hc Hr. split.
  - destruct (hillslope_uplift_ok status (Hillslope.uplift_per_step p) wh Hh)
      as (zh & E & _ & Hcore & Hother).
    exists zh. split; [exact Hcore|]. split; [exact Hother|].
    rewrite hillslope_body_unfold, E. reflexivity.
  - destruct (channels_uplift_ok status uplift_rate dt wc Hc Hr)
      as (rates & zc & Er & E & _ & Hcore & Hother).
    exists zc. split; [exact Hcore|]. split; [exact Hother|].
    rewrite channels_body_unfold, Er, E. reflexivity.
Qed.
End IterationFacts.

(* ================================================================== *)
(** * 12. Whole runs: determinism and continuation *)
(* ================================================================== *)

Lemma same_state_refl {T Aux DT} (w : World T Aux DT) : same_state w w.
Proof. split; reflexivity. Qed.

Lemma same_state_trans {T Aux DT} (w1 w2 w3 : World T Aux DT) :
  same_state w1 w2 -> same_state w2 w3 -> same_state w1 w3.
Proof. intros [? ?] [? ?]. split; congruence. Qed.

Section RunFacts.
Context {T : Type} `{PyNum T} {Aux : Type}.
Variable status : list NodeStatus.
Variable diffuse : T -> Fields T Aux -> Fields T Aux.
Variable ld : Z -> Fields T Aux -> Fields T Aux.
Variable frr : Fields T Aux -> Fields T Aux.
Variable spr : Z -> Fields T Aux -> Fields T Aux.

(** The hillslope body reads [nt] for the plot only: two parameter sets
    with the same [dt] and [uplift_per_step] do the same to the fields and
    to the clock. *)
Lemma hillslope_body_related (p1 p2 : Hillslope.Params) :
  Hillslope.dt p1 = Hillslope.dt p2 ->
  Hillslope.uplift_per_step p1 = Hillslope.uplift_per_step p2 ->
  forall i1 i2 (w1 w2 : World T Aux T),
    same_state w1 w2 ->
    fst (Hillslope.body status diffuse p1 i1 w1)
    = fst (Hillslope.body status diffuse p2 i2 w2)
    /\ same_state (snd (Hillslope.body status diffuse p1 i1 w1))
                  (snd (Hillslope.body status diffuse p2 i2 w2)).
Proof.
  intros Hdt Hu i1 i2 w1 w2 [Hf Hc].
  rewrite !hillslope_body_unfold, Hf, Hu.
  destruct (iadd_at _ _ _ _) as [z'|e]; cbn.
  - split; [reflexivity|]. split; cbn; congruence.
  - split; [reflexivity|]. split; assumption.
Qed.

Lemma hillslope_body_raise_keeps (p : Hillslope.Params) i
    (w : World T Aux T) e v :
  Hillslope.body status diffuse p i w = (Raise e, v) -> v = w.
Proof.
  rewrite hillslope_body_unfold.
  destruct (iadd_at _ _ _ _); [discriminate|]. congruence.
Qed.

Lemma channels_body_related (uplift_rate : list T) (dt : Z)
    (w1 w2 : World T Aux Z) :
  same_state w1 w2 ->
  fst (Channels.body ld frr spr status uplift_rate dt w1)
  = fst (Channels.body ld frr spr status uplift_rate dt w2)
  /\ same_state (snd (Channels.body ld frr spr status uplift_rate dt w1))
                (snd (Channels.body ld frr spr status uplift_rate dt w2)).
Proof.
  intros [Hf Hc]. rewrite !channels_body_unfold, Hf.
  destruct (take_at _ _) as [rates|e]; cbn.
  - destruct (iadd_at _ _ _ _) as [z'|e]; cbn.
    + split; [reflexivity|]. split; cbn; congruence.
    + split; [reflexivity|]. split; assumption.
  - split; [reflexivity|]. split; assumption.
Qed.

Lemma channels_body_raise_keeps (uplift_rate : list T) (dt : Z)
    (w : World T Aux Z) e v :
  Channels.body ld frr spr status uplift_rate dt w = (Raise e, v) -> v = w.
Proof.
  rewrite channels_body_unfold.
  destruct (take_at _ _); [|congruence].
  destruct (iadd_at _ _ _ _); [discriminate|]. congruence.
Qed.

Lemma hillslope_block7_with_nt (p : Hillslope.Params) (k : nat)
    (w : World T Aux T) :
  Hillslope.block7 status diffuse (with_nt p k) w
  = for_from 0 k (Hillslope.body status diffuse (with_nt p k)) w.
Proof.
  unfold Hillslope.block7, for_range. cbn [Hillslope.nt with_nt].
  rewrite Nat2Z.id. reflexivity.
Qed.

Lemma channels_block7_as_range (uplift_rate : list T) (dt : Z) (t : list T)
    (w : World T Aux Z) :
  Channels.block7 ld frr spr status uplift_rate dt t w
  = for_from 0 (length t)
             (fun _ => Channels.body ld frr spr status uplift_rate dt) w.
Proof. apply for_each_as_range. Qed.

(** Running [n] rounds, then [m] more from where the first loop stopped,
    against running [n + m] rounds at once. *)
Lemma continue_related {W} (related : W -> W -> Prop)
    (body1 body2 body12 : nat -> Nb W unit) :
  (forall w, related w w) ->
  (forall w1 w2 w3, related w1 w2 -> related w2 w3 -> related w1 w3) ->
  (forall i1 i2 w1 w2, related w1 w2 ->
     fst (body1 i1 w1) = fst (body12 i2 w2)
     /\ related (snd (body1 i1 w1)) (snd (body12 i2 w2))) ->
  (forall i1 i2 w1 w2, related w1 w2 ->
     fst (body2 i1 w1) = fst (body12 i2 w2)
     /\ related (snd (body2 i1 w1)) (snd (body12 i2 w2))) ->
  (forall i w e v, body1 i w = (Raise e, v) -> v = w) ->
  (forall i w e v, body2 i w = (Raise e, v) -> v = w) ->
  forall n m w,
    related (snd (for_from 0 m body2 (snd (for_from 0 n body1 w))))
            (snd (for_from 0 (n + m) body12 w)).
Proof.
  intros Hrefl Htrans H1 H2 K1 K2 n m w.
  rewrite for_from_add. unfold bind.
  destruct (for_from_related related body1 body12 H1 n 0 0 w w (Hrefl w))
    as [Hres Hst].
  destruct (for_from 0 n body1 w) as [[[]|e] v1] eqn:E1,
           (for_from 0 n body12 w) as [[[]|e'] v12];
    cbn in Hres, Hst |- *; try discriminate.
  - apply (for_from_related related body2 body12 H2 m). exact Hst.
  - destruct (for_from_raise_again body1 K1 n 0 w e v1 E1) as [i Ei].
    destruct m as [|m]; [exact Hst|].
    cbn [for_from]. unfold bind.
    destruct (H1 i 0 v1 v1 (Hrefl v1)) as [Hr1 _].
    destruct (H2 0 0 v1 v1 (Hrefl v1)) as [Hr2 _].
    rewrite Ei in Hr1. cbn in Hr1. rewrite <- Hr1 in Hr2.
    destruct (body2 0 v1) as [[[]|e2] v2] eqn:E2; cbn in Hr2; [discriminate|].
    rewrite (K2 _ _ _ _ E2). exact Hst.
Qed.

(** C8.  Continuation equals one longer run.  Running the time loop for
    [k1] iterations and then running it again for [k2] iterations, from
    the state the first run left and with the same parameters, ends with
    the same fields (the elevation array among them) and the same clock
    as one run of [k1 + k2] iterations from the initial state.  In the
    hillslope notebooks the three runs differ in [nt] only; in the channels
    notebook in the length of [t]. *)
Theorem continuation_equals_longer_run
    (p : Hillslope.Params) (k1 k2 : nat) (wh : World T Aux T)
    (uplift_rate : list T) (dt : Z) (t1 t2 t12 : list T)
    (wc : World T Aux Z) :
  length t12 = length t1 + length t2 ->
  same_state
    (snd (Hillslope.block7 status diffuse (with_nt p k2)
            (snd (Hillslope.block7 status diffuse (with_nt p k1) wh))))
    (snd (Hillslope.block7 status diffuse (with_nt p (k1 + k2)) wh))
  /\ same_state
       (snd (Channels.block7 ld frr spr status uplift_rate dt t2
               (snd (Channels.block7 ld frr spr status uplift_rate dt t1 wc))))
       (snd (Channels.block7 ld frr spr status uplift_rate dt t12 wc)).
Proof.
  intros Hlen. split.
  - rewrite !hillslope_block7_with_nt.
    apply continue_related;
      eauto using same_state_refl, same_state_trans,
                  hillslope_body_raise_keeps.
    + intros. apply hillslope_body_related; auto.
    + intros. apply hillslope_body_related; auto.
  - rewrite !channels_block7_as_range, Hlen.
    apply (continue_related same_state
             (fun _ => Channels.body ld frr spr status uplift_rate dt)
             (fun _ => Channels.body ld frr spr status uplift_rate dt)
             (fun _ => Channels.body ld frr spr status uplift_rate dt));
      eauto using same_state_refl, same_state_trans,
                  channels_body_raise_keeps.
    + intros. apply channels_body_related; auto.
    + intros. apply channels_body_related; auto.
Qed.
End RunFacts.

Section Determinism.
Context {T : Type} `{PyNum T} {Aux Rng : Type}.
Variable status : list NodeStatus.
Variable diffuse : T -> Fields T Aux -> Fields T Aux.
Variable np_seed : Z -> Rng.
Variable np_rand : nat -> Rng -> list T * Rng.
Variable watershed_status : list T -> list NodeStatus.
Variable ld : Z -> Fields T Aux -> Fields T Aux.
Variable frr : Fields T Aux -> Fields T Aux.
Variable spr : Z -> Fields T Aux -> Fields T Aux.

Lemma hillslope_block7_related (p1 p2 : Hillslope.Params)
    (w1 w2 : World T Aux T) :
  Hillslope.dt p1 = Hillslope.dt p2 ->
  Hillslope.uplift_per_step p1 = Hillslope.uplift_per_step p2 ->
  Hillslope.nt p1 = Hillslope.nt p2 ->
  same_state w1 w2 ->
  fst (Hillslope.block7 status diffuse p1 w1)
  = fst (Hillslope.block7 status diffuse p2 w2)
  /\ same_state (snd (Hillslope.block7 status diffuse p1 w1))
                (snd (Hillslope.block7 status diffuse p2 w2)).
Proof.
  intros Hdt Hu Hnt Hw. unfold Hillslope.block7, for_range. rewrite Hnt.
  apply (for_from_related same_state); [|exact Hw].
  intros. apply hillslope_body_related; auto.
Qed.

Lemma channels_block7_related (uplift_rate : list T) (dt : Z) (t : list T)
    (w1 w2 : World T Aux Z) :
  same_state w1 w2 ->
  fst (Channels.block7 ld frr spr status uplift_rate dt t w1)
  = fst (Channels.block7 ld frr spr status uplift_rate dt t w2)
  /\ same_state
       (snd (Channels.block7 ld frr spr status uplift_rate dt t w1))
       (snd (Channels.block7 ld frr spr status uplift_rate dt t w2)).
Proof.
  intros Hw. rewrite !channels_block7_as_range.
  apply (for_from_related same_state); [|exact Hw].
  intros. apply channels_body_related; auto.
Qed.

(** C4.  The drivers are deterministic.  Two runs of the time loop with
    the same parameters ([dt], uplift increment, iteration count, grid and
    components), started from states with the same fields and clock, raise
    or finish alike and end with elevation arrays that are equal entry by
    entry, and with equal clocks; what was plotted or printed before does
    not matter.  The channels notebook as a whole, which draws its initial
    noise after seeding the generator with 56, ends in the same state
    whatever state the generator was in before. *)
Theorem runs_are_deterministic
    (p1 p2 : Hillslope.Params) (wh1 wh2 : World T Aux T)
    (uplift_rate : list T) (dt : Z) (t : list T) (wc1 wc2 : World T Aux Z)
    (number_of_nodes : nat) (rate : T) (aux0 : Aux) (ambient1 ambient2 : Rng) :
  Hillslope.dt p1 = Hillslope.dt p2 ->
  Hillslope.uplift_per_step p1 = Hillslope.uplift_per_step p2 ->
  Hillslope.nt p1 = Hillslope.nt p2 ->
  same_state wh1 wh2 ->
  same_state wc1 wc2 ->
  (fst (Hillslope.block7 status diffuse p1 wh1)
   = fst (Hillslope.block7 status diffuse p2 wh2)
   /\ (forall i,
         elevation (fields (snd (Hillslope.block7 status diffuse p1 wh1))) !! i
         = elevation (fields (snd (Hillslope.block7 status diffuse p2 wh2))) !! i)
   /\ clock (snd (Hillslope.block7 status diffuse p1 wh1))
      = clock (snd (Hillslope.block7 status diffuse p2 wh2)))
  /\ (fst (Channels.block7 ld frr spr status uplift_rate dt t wc1)
      = fst (Channels.block7 ld frr spr status uplift_rate dt t wc2)
      /\ (forall i,
            elevation (fields (snd (Channels.block7 ld frr spr status
                                      uplift_rate dt t wc1))) !! i
            = elevation (fields (snd (Channels.block7 ld frr spr status
                                        uplift_rate dt t wc2))) !! i)
      /\ clock (snd (Channels.block7 ld frr spr status uplift_rate dt t wc1))
         = clock (snd (Channels.block7 ld frr spr status uplift_rate dt t wc2)))
  /\ Channels.run np_seed np_rand watershed_status ld frr spr
                  number_of_nodes rate dt t aux0 ambient1
     = Channels.run np_seed np_rand watershed_status ld frr spr
                    number_of_nodes rate dt t aux0 ambient2.
Proof.
  intros Hdt Hu Hnt Hh Hc. split; [|split].
  - destruct (hillslope_block7_related p1 p2 wh1 wh2 Hdt Hu Hnt Hh)
      as [Hres [Hf Hcl]].
    split; [exact Hres|]. split; [|exact Hcl].
    intros i. rewrite Hf. reflexivity.
  - destruct (channels_block7_related uplift_rate dt t wc1 wc2 Hc)
      as [Hres [Hf Hcl]].
    split; [exact Hres|]. split; [|exact Hcl].
    intros i. rewrite Hf. reflexivity.
  - reflexivity.
Qed.
End Determinism.

(* ================================================================== *)
(** * 13. Uplift without transport *)
(* ================================================================== *)

Lemma accumulate_succ {T} (plus : T -> T -> T) k u x :
  accumulate plus (S k) u x = accumulate plus k u (plus x u).
Proof. exact (Nat.iter_succ_r k (fun acc => plus acc u) x). Qed.

(** In exact arithmetic, [k] additions of [U * dt] add [k * U * dt]. *)
Lemma accumulate_real (k : nat) (U dt x : R) :
  accumulate Rplus k (U * dt)%R x = (x + INR k * U * dt)%R.
Proof.
  revert x. induction k as [|k IH]; intros x.
  - cbn. lra.
  - rewrite accumulate_succ, IH, S_INR. lra.
Qed.

Section NoTransport.
Context {T : Type} `{PyNum T} {Aux : Type}.
Variable status : list NodeStatus.
Variable diffuse : T -> Fields T Aux -> Fields T Aux.
Variable ld : Z -> Fields T Aux -> Fields T Aux.
Variable frr : Fields T Aux -> Fields T Aux.
Variable spr : Z -> Fields T Aux -> Fields T Aux.

Lemma hillslope_loop_without_transport (p : Hillslope.Params) :
  keeps_elevation (diffuse (Hillslope.dt p)) ->
  forall n a (w : World T Aux T),
    length (elevation (fields w)) = length status ->
    exists w',
      for_from a n (Hillslope.body status diffuse p) w = (Ok tt, w')
      /\ length (elevation (fields w')) = length status
      /\ (forall i, is_core_node status i ->
            elevation (fields w') !! i
            = accumulate add n (Hillslope.uplift_per_step p)
                <$> elevation (fields w) !! i)
      /\ (forall i, ~ is_core_node status i ->
            elevation (fields w') !! i = elevation (fields w) !! i).
Proof.
  intros Hkeep. induction n as [|n IH]; intros a w Hlen.
  - exists w. split; [reflexivity|]. split; [exact Hlen|]. split.
    + intros i _. cbn. destruct (_ !! i); reflexivity.
    + reflexivity.
  - destruct (hillslope_uplift_ok status (Hillslope.uplift_per_step p) w Hlen)
      as (z' & E & Hz' & Hcore & Hother).
    cbn [for_from]. unfold bind. rewrite hillslope_body_unfold, E.
    set (w1 := {| fields := _; clock := _; trace := _ |}).
    assert (Hw1 : elevation (fields w1) = z').
    { unfold w1. cbn. rewrite Hkeep. reflexivity. }
    destruct (IH (S a) w1) as (w' & Erun & Hlen' & Hc' & Ho').
    { rewrite Hw1. exact Hz'. }
    exists w'. split; [exact Erun|]. split; [exact Hlen'|]. split.
    + intros i Hi. rewrite (Hc' i Hi), Hw1, (Hcore i Hi).
      destruct (elevation (fields w) !! i); [|reflexivity].
      unfold fmap, option_fmap, option_map.
      rewrite accumulate_succ. reflexivity.
    + intros i Hi. rewrite (Ho' i Hi), Hw1. apply Hother, Hi.
Qed.

Lemma channels_loop_without_transport (uplift_rate : list T) (dt : Z) :
  keeps_elevation (ld dt) -> keeps_elevation frr -> keeps_elevation (spr dt) ->
  length uplift_rate = length status ->
  forall n a (w : World T Aux Z),
    length (elevation (fields w)) = length status ->
    exists w',
      for_from a n (fun _ => Channels.body ld frr spr status uplift_rate dt) w
      = (Ok tt, w')
      /\ length (elevation (fields w')) = length status
      /\ (forall i, is_core_node status i ->
            exists x r,
              elevation (fields w) !! i = Some x
              /\ uplift_rate !! i = Some r
              /\ elevation (fields w') !! i
                 = Some (accumulate add n (mul r (of_int dt)) x))
      /\ (forall i, ~ is_core_node status i ->
            elevation (fields w') !! i = elevation (fields w) !! i).
Proof.
  intros Hld Hfrr Hspr Hrate. induction n as [|n IH]; intros a w Hlen.
  - exists w. split; [reflexivity|]. split; [exact Hlen|]. split.
    + intros i Hi.
      destruct (lookup_lt_is_Some_2 (elevation (fields w)) i) as [x Hx].
      { rewrite Hlen. apply lookup_lt_Some in Hi. exact Hi. }
      destruct (lookup_lt_is_Some_2 uplift_rate i) as [r Hr].
      { rewrite Hrate. apply lookup_lt_Some in Hi. exact Hi. }
      exists x, r. auto.
    + reflexivity.
  - destruct (channels_uplift_ok status uplift_rate dt w Hlen Hrate)
      as (rates & z' & Er & E & Hz' & Hcore & Hother).
    cbn [for_from]. unfold bind. rewrite channels_body_unfold, Er, E.
    set (w1 := {| fields := _; clock := _; trace := _ |}).
    assert (Hw1 : elevation (fields w1) = z').
    { unfold w1. cbn. rewrite Hspr, Hfrr, Hld. reflexivity. }
    destruct (IH (S a) w1) as (w' & Erun & Hlen' & Hc' & Ho').
    { rewrite Hw1. exact Hz'. }
    exists w'. split; [exact Erun|]. split; [exact Hlen'|]. split.
    + intros i Hi.
      destruct (Hcore i Hi) as (x & r & Hx & Hr & Hzi).
      destruct (Hc' i Hi) as (x1 & r1 & Hx1 & Hr1 & Hfin).
      exists x, r. split; [exact Hx|]. split; [exact Hr|].
      rewrite Hfin, accumulate_succ.
      rewrite Hw1, Hzi in Hx1. injection Hx1 as <-.
      rewrite Hr in Hr1. injection Hr1 as <-. reflexivity.
    + intros i Hi. rewrite (Ho' i Hi), Hw1. apply Hother, Hi.
Qed.

(** C1, as amended.  When the transport and erosion steps (and flow
    routing) leave the elevation field alone, a run of [k] iterations on a
    grid whose arrays have one entry per node finishes without raising,
    leaves the elevation of every boundary node unchanged, and leaves at
    every core node its initial elevation with the per-iteration increment
    added [k] times, one addition per iteration: the increment is
    [uplift_per_step] in the hillslope notebooks and [uplift_rate[i] * dt]
    in the channels notebook.  In exact real arithmetic, with the increment
    [U * dt], that is the initial value plus [k * U * dt]. *)
Theorem uplift_accumulates_without_transport
    (p : Hillslope.Params) (k : nat) (wh : World T Aux T)
    (uplift_rate : list T) (dt : Z) (t : list T) (wc : World T Aux Z) :
  keeps_elevation (diffuse (Hillslope.dt p)) ->
  keeps_elevation (ld dt) -> keeps_elevation frr -> keeps_elevation (spr dt) ->
  length (elevation (fields wh)) = length status ->
  length (elevation (fields wc)) = length status ->
  length uplift_rate = length status ->
  length t = k ->
  (let wh' := snd (Hillslope.block7 status diffuse (with_nt p k) wh) in
   fst (Hillslope.block7 status diffuse (with_nt p k) wh) = Ok tt
   /\ (forall i, is_core_node status i ->
         elevation (fields wh') !! i
         = accumulate add k (Hillslope.uplift_per_step p)
             <$> elevation (fields wh) !! i)
   /\ (forall i, is_boundary_node status i ->
         elevation (fields wh') !! i = elevation (fields wh) !! i))
  /\ (let wc' := snd (Channels.block7 ld frr spr status uplift_rate dt t wc) in
      fst (Channels.block7 ld frr spr status uplift_rate dt t wc) = Ok tt
      /\ (forall i, is_core_node status i ->
            exists x r,
              elevation (fields wc) !! i = Some x
              /\ uplift_rate !! i = Some r
              /\ elevation (fields wc') !! i
                 = Some (accumulate add k (mul r (of_int dt)) x))
      /\ (forall i, is_boundary_node status i ->
            elevation (fields wc') !! i = elevation (fields wc) !! i))
  /\ (forall U step x : R,
        accumulate Rplus k (U * step)%R x = (x + INR k * U * step)%R).
Proof.
  intros Hdiff Hld Hfrr Hspr Hh Hc Hrate Ht. split; [|split].
  - rewrite hillslope_block7_with_nt.
    destruct (hillslope_loop_without_transport (with_nt p k) Hdiff k 0 wh Hh)
      as (w' & E & _ & Hcore & Hother).
    rewrite E. cbn. split; [reflexivity|]. split; [exact Hcore|].
    intros i Hb. apply Hother. rewrite <- core_nodes_spec.
    apply boundary_not_core, Hb.
  - rewrite channels_block7_as_range, Ht.
    destruct (channels_loop_without_transport uplift_rate dt Hld Hfrr Hspr
                Hrate k 0 wc Hc) as (w' & E & _ & Hcore & Hother).
    rewrite E. cbn. split; [reflexivity|]. split; [exact Hcore|].
    intros i Hb. apply Hother. rewrite <- core_nodes_spec.
    apply boundary_not_core, Hb.
  - intros U step x. apply accumulate_real.
Qed.
End NoTransport.

(* ================================================================== *)
(** * 14. The timestep and the iteration count *)
(* ================================================================== *)

Section TimestepFacts.
Context {T : Type} `{PyNum T} {Aux : Type}.
Variable status : list NodeStatus.
Variable diffuse : T -> Fields T Aux -> Fields T Aux.

(** Code Block 4 binds [dt] once; Code Block 7 runs with that value. *)
Lemma hillslope_run_unfold (dx D uplift_rate : T) (runtime : Z)
    (w : World T Aux T) (d : T) (n : Z) :
  Hillslope.timestep dx D = Ok d ->
  Hillslope.number_of_steps runtime d = Ok n ->
  Hillslope.run status diffuse dx D uplift_rate runtime w
  = Hillslope.block7 status diffuse
      {| Hillslope.dt := d; Hillslope.nt := n;
         Hillslope.uplift_per_step := mul uplift_rate d |}
      {| fields := fields w; clock := of_int 0; trace := trace w |}.
Proof.
  intros Ed En. unfold Hillslope.run, Hillslope.block4, bind, lift.
  rewrite Ed, En. reflexivity.
Qed.


(** With a component that keeps the array's shape, the loop runs all its
    rounds, whatever the value of [dt]. *)
Lemma hillslope_loop_runs (p : Hillslope.Params) :
  keeps_shape (diffuse (Hillslope.dt p)) ->
  forall n a (w : World T Aux T),
    length (elevation (fields w)) = length status ->
    exists w',
      for_from a n (Hillslope.body status diffuse p) w = (Ok tt, w')
      /\ length (elevation (fields w')) = length status
      /\ clock w' = accumulate add n (Hillslope.dt p) (clock w)
      /\ trace w' = trace w ++ flat_map (hillslope_events p) (seq a n).
Proof.
  intros Hshape. induction n as [|n IH]; intros a w Hlen.
  - exists w. cbn. rewrite app_nil_r. auto.
  - destruct (hillslope_uplift_ok status (Hillslope.uplift_per_step p) w Hlen)
      as (z' & E & Hz' & _ & _).
    cbn [for_from]. unfold bind. rewrite hillslope_body_unfold, E.
    set (w1 := {| fields := _; clock := _; trace := _ |}).
    destruct (IH (S a) w1) as (w' & Erun & Hlen' & Hclock & Htrace).
    { unfold w1. cbn. rewrite Hshape. exact Hz'. }
    exists w'. split; [exact Erun|]. split; [exact Hlen'|]. split.
    + rewrite Hclock, accumulate_succ. reflexivity.
    + rewrite Htrace. unfold w1. cbn [trace seq flat_map].
      rewrite <- app_assoc. reflexivity.
Qed.

End TimestepFacts.


Lemma real_positive_not_zero (x : R) : (0 < x)%R -> Ideal.is_zero x = false.
Proof.
  intros Hx. unfold Ideal.is_zero. destruct (Req_dec_T x 0); [lra|reflexivity].
Qed.

Lemma real_timestep (dx D : R) :
  (0 < D)%R -> Hillslope.timestep dx D = Ok (1 / 2 * (dx ^ 2 / D))%R.
Proof.
  intros HD. unfold Hillslope.timestep, truediv. cbn.
  rewrite (real_positive_not_zero D HD). f_equal.
  unfold decimal. cbn. field. lra.
Qed.

Section NoStabilityCheck.
Context {T : Type} `{PyNum T} {Aux : Type}.
Variable status : list NodeStatus.
Variable diffuse : T -> Fields T Aux -> Fields T Aux.

End NoStabilityCheck.

Lemma accumulate_real_from (k : nat) (u x : R) :
  accumulate Rplus k u x = (x + INR k * u)%R.
Proof.
  replace u with (1 * u)%R at 1 by lra. rewrite accumulate_real. lra.
Qed.

Lemma Int_part_IZR (n : Z) : Int_part (IZR n) = n.
Proof. symmetry. apply Int_part_spec. lra. Qed.

(** In exact arithmetic [int(runtime // dt)] is the floor of
    [runtime / dt]. *)
Lemma real_number_of_steps (runtime : Z) (dt : R) :
  (0 < dt)%R -> (0 <= runtime)%Z ->
  Hillslope.number_of_steps runtime dt = Ok (Int_part (IZR runtime / dt))
  /\ (0 <= Int_part (IZR runtime / dt))%Z.
Proof.
  intros Hdt Hrun.
  assert (Hq : (0 <= IZR runtime / dt)%R).
  { apply Rle_mult_inv_pos; [apply IZR_le, Hrun|exact Hdt]. }
  destruct (base_Int_part (IZR runtime / dt)) as [_ Hlow].
  assert (Hnt : (0 <= Int_part (IZR runtime / dt))%Z).
  { apply Z.lt_succ_r. apply lt_IZR.
    replace (Z.succ (Int_part (IZR runtime / dt)))
      with (Int_part (IZR runtime / dt) + 1)%Z by lia.
    rewrite plus_IZR. lra. }
  split; [|exact Hnt].
  unfold Hillslope.number_of_steps, floordiv. cbn.
  rewrite (real_positive_not_zero dt Hdt). unfold Ideal.trunc, Ideal.floor_div.
  destruct (Rle_dec 0 (IZR (Int_part (IZR runtime / dt)))) as [_|Hneg].
  - rewrite Int_part_IZR. reflexivity.
  - exfalso. apply Hneg. apply IZR_le, Hnt.
Qed.

(** C10, as amended.  [nt = int(runtime // dt)] is the floor of
    [runtime / dt].  In exact arithmetic, for a non-negative [runtime] and
    a positive [dt], the clock at the end of the run is [nt * dt]; it never
    exceeds [runtime] and is strictly less whenever [dt] does not divide
    [runtime] exactly.  On binary64 the clock is the result of [nt] rounded
    additions of [dt]; with the values of the notebooks ([runtime] 10^6,
    [dx] 5, [D] 0.01) [dt] is 1250, [nt] is 800, and the final clock is
    exactly [runtime]. *)
Theorem iteration_count_is_floor
    {AuxR AuxB : Type}
    (statusR : list NodeStatus)
    (diffuseR : R -> Fields R AuxR -> Fields R AuxR)
    (dx D U : R) (runtime : Z) (w : World R AuxR R)
    (statusB : list NodeStatus)
    (diffuseB : B64.binary64 -> Fields B64.binary64 AuxB
                -> Fields B64.binary64 AuxB)
    (wb : World B64.binary64 AuxB B64.binary64) :
  dx <> 0%R -> (0 < D)%R -> (0 <= runtime)%Z ->
  (forall d, keeps_shape (diffuseR d)) ->
  length (elevation (fields w)) = length statusR ->
  (forall d, keeps_shape (diffuseB d)) ->
  length (elevation (fields wb)) = length statusB ->
  (let dt := (1 / 2 * (dx ^ 2 / D))%R in
   let nt := Int_part (IZR runtime / dt) in
   Hillslope.number_of_steps runtime dt = Ok nt
   /\ fst (Hillslope.run statusR diffuseR dx D U runtime w) = Ok tt
   /\ clock (snd (Hillslope.run statusR diffuseR dx D U runtime w))
      = (IZR nt * dt)%R
   /\ (IZR nt * dt <= IZR runtime)%R
   /\ (~ (exists n : Z, IZR runtime = (IZR n * dt)%R) ->
       (IZR nt * dt < IZR runtime)%R))
  /\ (Hillslope.timestep Sample.dx Sample.D = Ok (B64.of_Z 1250)
      /\ Hillslope.number_of_steps Sample.runtime (B64.of_Z 1250) = Ok 800%Z
      /\ fst (Hillslope.run statusB diffuseB Sample.dx Sample.D
                Sample.uplift_rate Sample.runtime wb) = Ok tt
      /\ clock (snd (Hillslope.run statusB diffuseB Sample.dx Sample.D
                       Sample.uplift_rate Sample.runtime wb))
         = B64.of_Z Sample.runtime).
Proof.
  intros Hdx HD Hrun HshapeR HlenR HshapeB HlenB. split.
  - intros dt nt.
    assert (Hdt : (0 < dt)%R).
    { unfold dt. apply Rmult_lt_0_compat; [lra|].
      apply Rdiv_lt_0_compat; [|exact HD].
      assert (0 < dx * dx)%R by nra. replace (dx ^ 2)%R with (dx * dx)%R by ring.
      assumption. }
    destruct (real_number_of_steps runtime dt Hdt Hrun) as [Hsteps Hnt].
    fold nt in Hsteps, Hnt.
    rewrite (hillslope_run_unfold statusR diffuseR dx D U runtime w dt nt
               (real_timestep dx D HD) Hsteps).
    unfold Hillslope.block7, for_range. cbn [Hillslope.nt].
    destruct (hillslope_loop_runs statusR diffuseR
                {| Hillslope.dt := dt; Hillslope.nt := nt;
                   Hillslope.uplift_per_step := mul U dt |}
                (HshapeR dt) (Z.to_nat nt) 0
                {| fields := fields w; clock := of_int 0; trace := trace w |}
                HlenR)
      as (w' & E & _ & Hclock & _).
    rewrite E. cbn [fst snd].
    destruct (base_Int_part (IZR runtime / dt)) as [Hup _]. fold nt in Hup.
    assert (Hprod : (IZR nt * dt <= IZR runtime)%R).
    { apply (Rmult_le_compat_r dt) in Hup; [|lra].
      replace (IZR runtime / dt * dt)%R with (IZR runtime) in Hup
        by (field; lra).
      exact Hup. }
    split; [exact Hsteps|]. split; [reflexivity|]. split; [|split].
    + rewrite Hclock. cbn [Hillslope.dt clock].
      change (accumulate add (Z.to_nat nt) dt (of_int 0))
        with (accumulate Rplus (Z.to_nat nt) dt 0%R).
      rewrite accumulate_real_from, INR_IZR_INZ, Z2Nat.id by exact Hnt. lra.
    + exact Hprod.
    + intros Hnd. destruct Hprod as [Hlt|Heq]; [exact Hlt|].
      exfalso. apply Hnd. exists nt. symmetry. exact Heq.
  - assert (Ed : Hillslope.timestep Sample.dx Sample.D = Ok (B64.of_Z 1250))
      by (vm_compute; reflexivity).
    assert (En : Hillslope.number_of_steps Sample.runtime (B64.of_Z 1250)
                 = Ok 800%Z) by (vm_compute; reflexivity).
    split; [exact Ed|]. split; [exact En|].
    rewrite (hillslope_run_unfold statusB diffuseB _ _ Sample.uplift_rate
               _ wb _ _ Ed En).
    unfold Hillslope.block7, for_range. cbn [Hillslope.nt].
    destruct (hillslope_loop_runs statusB diffuseB
                {| Hillslope.dt := B64.of_Z 1250; Hillslope.nt := 800;
                   Hillslope.uplift_per_step
                   := mul Sample.uplift_rate (B64.of_Z 1250) |}
                (HshapeB _) (Z.to_nat 800) 0
                {| fields := fields wb; clock := of_int 0; trace := trace wb |}
                HlenB)
      as (w' & E & _ & Hclock & _).
    rewrite E. cbn [fst snd]. split; [reflexivity|].
    rewrite Hclock. vm_compute. reflexivity.
Qed.

(* ================================================================== *)
(** * 15. The analytical steady-state profile *)
(* ================================================================== *)

(** On the notebooks' grid the squared half-width is [L^2 / 4] on
    binary64 too: both are 10000. *)
Lemma b64_half_width_squared :
  power2 (Hillslope.half_width 41 Sample.dx)
  = div (power2 (domain_length 41 Sample.dx)) (of_int 4).
Proof. vm_compute. reflexivity. Qed.

Lemma digits2_pos_shifted (n m : positive) :
  Z.pos (digits2_pos (Pos.iter xO m n)) = (Z.pos (digits2_pos m) + Z.pos n)%Z.
Proof.
  induction n as [|n IH] using Pos.peano_ind.
  - cbn. lia.
  - rewrite Pos.iter_succ. cbn [digits2_pos]. lia.
Qed.

(** Twice a positive binary64 number is not zero: doubling does not
    underflow.  So [2 * D] is a divisor Python accepts whenever [D > 0]. *)
Lemma b64_double_not_zero (x : B64.binary64) :
  valid_binary B64.prec B64.emax x = true ->
  B64.lt B64.pos_zero x ->
  B64.is_zero (SFmul B64.prec B64.emax (B64.of_Z 2) x) = false.
Proof.
  unfold B64.lt, B64.pos_zero.
  destruct x as [s|s| |s m e]; cbn [valid_binary]; intros Hv Hx;
    try (cbn in Hx; discriminate).
  - destruct s; cbn in Hx; [discriminate|]. reflexivity.
  - destruct s; [cbn in Hx; discriminate|]. clear Hx.
    change (B64.of_Z 2) with (S754_finite false 4503599627370496 (-51)).
    unfold SFmul. cbn [xorb].
    unfold bounded, canonical_mantissa in Hv.
    apply andb_prop in Hv as [Hc Hb].
    apply Z.eqb_eq in Hc. apply Z.leb_le in Hb.
    unfold fexp, emin, B64.prec, B64.emax in Hc, Hb.
    change (Pos.mul 4503599627370496 m) with (Pos.iter xO m 52).
    unfold binary_round_aux, B64.prec, B64.emax.
    destruct (Z_lt_le_dec (Z.pos (digits2_pos m)) 53) as [Hsub|Hnorm].
    + (* a subnormal number: the exponent stays, the mantissa doubles *)
      assert (He : e = (-1074)%Z) by lia. subst e.
      assert (E1 : shr_fexp 53 1024 (Z.pos (Pos.iter xO m 52))
                     (-51 + -1074) loc_Exact
                   = ({| shr_m := Z.pos m~0; shr_r := false; shr_s := false |},
                      (-1074)%Z)).
      { unfold shr_fexp, fexp, emin, Zdigits2. rewrite digits2_pos_shifted.
        replace (Z.max (Z.pos (digits2_pos m) + 52 + (-51 + -1074) - 53)
                       (3 - 1024 - 53) - (-51 + -1074))%Z
          with 51%Z by lia.
        vm_compute. reflexivity. }
      rewrite E1. cbn [shr_m loc_of_shr_record round_nearest_even].
      assert (E2 : shr_fexp 53 1024 (Z.pos m~0) (-1074) loc_Exact
                   = ({| shr_m := Z.pos m~0; shr_r := false; shr_s := false |},
                      (-1074)%Z)).
      { unfold shr_fexp, fexp, emin, Zdigits2. cbn [digits2_pos].
        replace (Z.max (Z.pos (Pos.succ (digits2_pos m)) + -1074 - 53)
                       (3 - 1024 - 53) - -1074)%Z
          with 0%Z by lia.
        reflexivity. }
      rewrite E2. cbn [shr_m]. reflexivity.
    + (* a normal number: the mantissa stays, the exponent grows by one *)
      assert (Hd : Z.pos (digits2_pos m) = 53%Z) by lia.
      assert (E1 : shr_fexp 53 1024 (Z.pos (Pos.iter xO m 52))
                     (-51 + e) loc_Exact
                   = ({| shr_m := Z.pos m; shr_r := false; shr_s := false |},
                      (e + 1)%Z)).
      { unfold shr_fexp, fexp, emin, Zdigits2. rewrite digits2_pos_shifted.
        replace (Z.max (Z.pos (digits2_pos m) + 52 + (-51 + e) - 53)
                       (3 - 1024 - 53) - (-51 + e))%Z
          with 52%Z by lia.
        unfold shr. replace (-51 + e + 52)%Z with (e + 1)%Z by lia.
        reflexivity. }
      rewrite E1. cbn [shr_m loc_of_shr_record round_nearest_even].
      assert (E2 : shr_fexp 53 1024 (Z.pos m) (e + 1) loc_Exact
                   = ({| shr_m := Z.pos m; shr_r := false; shr_s := false |},
                      (e + 1)%Z)).
      { unfold shr_fexp, fexp, emin, Zdigits2.
        replace (Z.max (Z.pos (digits2_pos m) + (e + 1) - 53)
                       (3 - 1024 - 53) - (e + 1))%Z
          with 0%Z by lia.
        reflexivity. }
      rewrite E2. cbn [shr_m].
      destruct (e + 1 <=? 1024 - 53)%Z; reflexivity.
Qed.

(** C5.  The analytical steady-state profile of Code Block 5,
    [zs = (uplift_rate / (2 * D)) * (half_width^2 - (ys - divide_loc)^2)]
    with [divide_loc = half_width = (number_of_node_rows * dx - dx) / 2],
    is pointwise the profile of the specification,
    [(U/2D) * (L^2/4 - (y - L/2)^2)] with
    [L = number_of_node_rows * dx - dx], for every [y], every [U] and
    every [D > 0]: in exact arithmetic on every grid, and on binary64 on
    the notebooks' grid of 41 rows and spacing 5.  ([valid_binary] holds
    of the representations that denote binary64 numbers.) *)
Theorem analytical_profile_matches_spec
    (rows : Z) (rdx rU rD ry : R) (bU bD bY : B64.binary64) :
  (0 < rD)%R ->
  valid_binary B64.prec B64.emax bD = true ->
  B64.lt B64.pos_zero bD ->
  Hillslope.zs_at rows rdx rU rD ry
  = Ok (parabolic_profile rU rD (domain_length rows rdx) ry)
  /\ parabolic_profile rU rD (domain_length rows rdx) ry
     = (let L := (IZR rows * rdx - rdx)%R in
        rU / (2 * rD) * (L ^ 2 / 4 - (ry - L / 2) ^ 2))%R
  /\ Hillslope.zs_at 41 Sample.dx bU bD bY
     = Ok (parabolic_profile bU bD (domain_length 41 Sample.dx) bY).
Proof.
  intros HD Hvalid HbD.
  assert (H2D : Ideal.is_zero (2 * rD) = false)
    by (apply real_positive_not_zero; lra).
  split; [|split].
  - unfold Hillslope.zs_at, parabolic_profile, truediv. cbn.
    rewrite H2D. f_equal.
    unfold Hillslope.half_width, Hillslope.divide_loc, domain_length, power2.
    cbn. field. lra.
  - unfold parabolic_profile, domain_length, power2. cbn. field. lra.
  - unfold Hillslope.zs_at, parabolic_profile, truediv.
    cbn [eq_zero mul of_int B64.num].
    rewrite (b64_double_not_zero bD Hvalid HbD).
    rewrite b64_half_width_squared. reflexivity.
Qed.

(* ================================================================== *)
(** * 16. Mass balance over the core nodes *)
(* ================================================================== *)






Section MassBalance.
Context {Aux : Type}.
Variable status : list NodeStatus.
Variable diffuse : R -> Fields R Aux -> Fields R Aux.
Variable ld : Z -> Fields R Aux -> Fields R Aux.
Variable frr : Fields R Aux -> Fields R Aux.
Variable spr : Z -> Fields R Aux -> Fields R Aux.

End MassBalance.

(* ================================================================== *)
(** * 17. Where binary64 and the stated formulas part *)
(* ================================================================== *)

Lemma idle_keeps_elevation {T Aux} : keeps_elevation (@Sample.idle T Aux).
Proof. intros f. reflexivity. Qed.

Lemma idle_keeps_shape {T Aux} : keeps_shape (@Sample.idle T Aux).
Proof. intros f. reflexivity. Qed.

(** C1 as stated fails on binary64.  The channels loop with its own rate
    0.0001 and [dt = 1000], components that do nothing, and a flat initial
    field, after ten iterations: the core node stands at
    0.9999999999999999, while its initial value plus [10 * U * dt] is 1.0
    in either order of evaluation; and the exact value of the entry is not
    [10 * U * dt] for the stored rate [U] either. *)
Lemma ten_additions_are_not_ten_times_the_increment :
  let run :=
    Channels.block7 (fun _ => Sample.idle) Sample.idle (fun _ => Sample.idle)
      Sample.small_grid (Channels.block6 9 Sample.uplift_rate) 1000
      Sample.ten_steps (Sample.flat 9 0%Z) in
  let initial : B64.binary64 := of_int 0 in
  let final := S754_finite false 0x1fffffffffffff (-53) in
  is_core_node Sample.small_grid 4
  /\ elevation (fields (Sample.flat (T := B64.binary64) 9 0%Z)) !! 4
     = Some initial
  /\ fst run = Ok tt
  /\ elevation (fields (snd run)) !! 4 = Some final
  /\ final <> add initial (mul (mul (of_int 10) Sample.uplift_rate)
                               (of_int 1000))
  /\ final <> add initial (mul (of_int 10)
                               (mul Sample.uplift_rate (of_int 1000)))
  /\ exists f u,
       exact_value final = Some f
       /\ exact_value Sample.uplift_rate = Some u
       /\ ~ same_fraction f (fraction_mul (fraction_of_Z (10 * 1000)) u).
Proof.
  cbv zeta. split; [reflexivity|]. split; [reflexivity|].
  split; [vm_compute; reflexivity|]. split; [vm_compute; reflexivity|].
  split; [vm_compute; discriminate|]. split; [vm_compute; discriminate|].
  eexists _, _. split; [reflexivity|]. split; [vm_compute; reflexivity|].
  vm_compute. discriminate.
Qed.

(** C10 as stated fails on binary64.  The hillslope notebook with only [D]
    changed to 0.017: [dt] is 735.2941176470588 and [nt] is 1360; the
    clock after the run is 1000000.0000000257, above the requested
    [runtime]; the product [nt * dt] rounds to [runtime] exactly although
    [dt] does not divide [runtime], the exact product being smaller. *)
Lemma final_clock_exceeds_runtime :
  let run :=
    Hillslope.run Sample.hillslope_grid (fun _ => Sample.idle)
      Sample.dx Sample.D_0_017 Sample.uplift_rate Sample.runtime
      (Sample.flat 205 B64.pos_zero) in
  let dt := S754_finite false 6467715457505882 (-43) in
  Hillslope.timestep Sample.dx Sample.D_0_017 = Ok dt
  /\ Hillslope.number_of_steps Sample.runtime dt = Ok 1360%Z
  /\ fst run = Ok tt
  /\ clock (snd run) = S754_finite false 8589934592000221 (-33)
  /\ B64.lt (of_int Sample.runtime) (clock (snd run))
  /\ mul (of_int 1360) dt = of_int Sample.runtime
  /\ exists f,
       exact_value dt = Some f
       /\ ~ divides_exactly f Sample.runtime
       /\ fraction_lt (fraction_mul (fraction_of_Z 1360) f)
                      (fraction_of_Z Sample.runtime).
Proof.
  cbv zeta.
  assert (Eclock :
            clock (snd (Hillslope.run Sample.hillslope_grid
                          (fun _ => Sample.idle) Sample.dx Sample.D_0_017
                          Sample.uplift_rate Sample.runtime
                          (Sample.flat 205 B64.pos_zero)))
            = S754_finite false 8589934592000221 (-33))
    by (vm_compute; reflexivity).
  split; [vm_compute; reflexivity|]. split; [vm_compute; reflexivity|].
  split; [vm_compute; reflexivity|]. split; [exact Eclock|].
  split; [rewrite Eclock; vm_compute; reflexivity|].
  split; [vm_compute; reflexivity|].
  exists (6467715457505882%Z, 43%Z).
  split; [reflexivity|]. split; [|vm_compute; reflexivity].
  intros [n Hn]. unfold same_fraction, fraction_mul, fraction_of_Z in Hn.
  cbn [fst snd] in Hn. change (2 ^ 0)%Z with 1%Z in Hn.
  rewrite Z.mul_1_r in Hn.
  apply (f_equal (fun x => (x mod 6467715457505882)%Z)) in Hn.
  rewrite Z_mod_mult in Hn. vm_compute in Hn. discriminate.
Qed.

(* ================================================================== *)
(** * 18. A transport step that drains faster than the uplift adds *)
(* ================================================================== *)






(* ================================================================== *)
(** * 19. The statements at concrete inputs *)
(* ================================================================== *)

Lemma small_grid_corner_is_boundary : is_boundary_node Sample.small_grid 0.
Proof. exists Closed. split; [reflexivity|discriminate]. Defined.

Lemma uplift_leaves_boundary_nodes_witness :
  is_boundary_node Sample.small_grid 0
  /\ elevation (fields (snd (Hillslope.uplift Sample.small_grid
                               Sample.uplift_rate
                               (Sample.flat 9 B64.pos_zero)))) !! 0
     = elevation (fields (Sample.flat (T := B64.binary64) 9 B64.pos_zero)) !! 0
  /\ elevation (fields (snd (Channels.uplift Sample.small_grid
                               (Channels.block6 9 Sample.uplift_rate) 1000
                               (Sample.flat 9 0%Z)))) !! 0
     = elevation (fields (Sample.flat (T := B64.binary64) 9 0%Z)) !! 0.
Proof.
  split; [exact small_grid_corner_is_boundary|].
  exact (uplift_leaves_boundary_nodes Sample.small_grid 0 Sample.uplift_rate
           (Sample.flat 9 B64.pos_zero)
           (Channels.block6 9 Sample.uplift_rate) 1000 (Sample.flat 9 0%Z)
           small_grid_corner_is_boundary).
Defined.

Lemma iteration_steps_in_order_witness :
  length (elevation (fields (Sample.flat (T := B64.binary64) 9 B64.pos_zero)))
  = length Sample.small_grid
  /\ length (elevation (fields (Sample.flat (T := B64.binary64) 9 0%Z)))
     = length Sample.small_grid
  /\ length (Channels.block6 9 Sample.uplift_rate) = length Sample.small_grid
  /\ fst (Hillslope.body Sample.small_grid (fun _ => Sample.idle)
            Sample.short_run 5 (Sample.flat 9 B64.pos_zero)) = Ok tt
  /\ trace (snd (Channels.body (fun _ => Sample.idle) Sample.idle
                   (fun _ => Sample.idle) Sample.small_grid
                   (Channels.block6 9 Sample.uplift_rate) 1000
                   (Sample.flat 9 0%Z)))
     = channels_events 1000.
Proof.
  split; [reflexivity|]. split; [reflexivity|]. split; [reflexivity|].
  destruct (iteration_steps_in_order Sample.small_grid
              (fun _ => Sample.idle) (fun _ => Sample.idle) Sample.idle
              (fun _ => Sample.idle) Sample.short_run 5
              (Sample.flat 9 B64.pos_zero)
              (Channels.block6 9 Sample.uplift_rate) 1000 (Sample.flat 9 0%Z)
              eq_refl eq_refl eq_refl)
    as [(zh & _ & _ & Eh) (zc & _ & _ & Ec)].
  rewrite Eh, Ec. split; reflexivity.
Defined.

Lemma continuation_equals_longer_run_witness :
  length (take 5 Sample.ten_steps)
  = length (take 2 Sample.ten_steps) + length (take 3 Sample.ten_steps)
  /\ same_state
       (snd (Hillslope.block7 Sample.small_grid (fun _ => Sample.idle)
               (with_nt Sample.short_run 3)
               (snd (Hillslope.block7 Sample.small_grid (fun _ => Sample.idle)
                       (with_nt Sample.short_run 2)
                       (Sample.flat 9 B64.pos_zero)))))
       (snd (Hillslope.block7 Sample.small_grid (fun _ => Sample.idle)
               (with_nt Sample.short_run (2 + 3))
               (Sample.flat 9 B64.pos_zero)))
  /\ same_state
       (snd (Channels.block7 (fun _ => Sample.idle) Sample.idle
               (fun _ => Sample.idle) Sample.small_grid
               (Channels.block6 9 Sample.uplift_rate) 1000
               (take 3 Sample.ten_steps)
               (snd (Channels.block7 (fun _ => Sample.idle) Sample.idle
                       (fun _ => Sample.idle) Sample.small_grid
                       (Channels.block6 9 Sample.uplift_rate) 1000
                       (take 2 Sample.ten_steps) (Sample.flat 9 0%Z)))))
       (snd (Channels.block7 (fun _ => Sample.idle) Sample.idle
               (fun _ => Sample.idle) Sample.small_grid
               (Channels.block6 9 Sample.uplift_rate) 1000
               (take 5 Sample.ten_steps) (Sample.flat 9 0%Z))).
Proof.
  split; [reflexivity|].
  exact (continuation_equals_longer_run Sample.small_grid
           (fun _ => Sample.idle) (fun _ => Sample.idle) Sample.idle
           (fun _ => Sample.idle) Sample.short_run 2 3
           (Sample.flat 9 B64.pos_zero)
           (Channels.block6 9 Sample.uplift_rate) 1000
           (take 2 Sample.ten_steps) (take 3 Sample.ten_steps)
           (take 5 Sample.ten_steps) (Sample.flat 9 0%Z) eq_refl).
Defined.

Lemma flat_same_state_after_plot :
  same_state (Sample.flat 9 B64.pos_zero) Sample.flat_after_plot.
Proof. split; reflexivity. Defined.

Lemma runs_are_deterministic_witness :
  same_state (Sample.flat 9 B64.pos_zero) Sample.flat_after_plot
  /\ clock (snd (Hillslope.block7 Sample.small_grid (fun _ => Sample.idle)
                   Sample.short_run (Sample.flat 9 B64.pos_zero)))
     = clock (snd (Hillslope.block7 Sample.small_grid (fun _ => Sample.idle)
                     Sample.short_run Sample.flat_after_plot))
  /\ Channels.run (fun seed => Z.to_nat seed)
                  (fun n state => (replicate n Sample.uplift_rate, S state))
                  (fun _ => Sample.small_grid)
                  (fun _ => Sample.idle) Sample.idle (fun _ => Sample.idle)
                  9 Sample.uplift_rate 1000 Sample.ten_steps tt 0
     = Channels.run (fun seed => Z.to_nat seed)
                    (fun n state => (replicate n Sample.uplift_rate, S state))
                    (fun _ => Sample.small_grid)
                    (fun _ => Sample.idle) Sample.idle (fun _ => Sample.idle)
                    9 Sample.uplift_rate 1000 Sample.ten_steps tt 7.
Proof.
  split; [exact flat_same_state_after_plot|].
  destruct (runs_are_deterministic Sample.small_grid (fun _ => Sample.idle)
              (fun seed => Z.to_nat seed)
              (fun n state => (replicate n Sample.uplift_rate, S state))
              (fun _ => Sample.small_grid)
              (fun _ => Sample.idle) Sample.idle (fun _ => Sample.idle)
              Sample.short_run Sample.short_run
              (Sample.flat 9 B64.pos_zero) Sample.flat_after_plot
              (Channels.block6 9 Sample.uplift_rate) 1000 Sample.ten_steps
              (Sample.flat 9 0%Z) (Sample.flat 9 0%Z)
              9 Sample.uplift_rate tt 0 7
              eq_refl eq_refl eq_refl flat_same_state_after_plot
              (same_state_refl _))
    as [(_ & _ & Hclock) [_ Hrun]].
  split; [exact Hclock|exact Hrun].
Defined.

Lemma uplift_accumulates_without_transport_witness :
  keeps_elevation (@Sample.idle B64.binary64 unit)
  /\ length (elevation (fields (Sample.flat (T := B64.binary64) 9 0%Z)))
     = length Sample.small_grid
  /\ length (Channels.block6 9 Sample.uplift_rate) = length Sample.small_grid
  /\ length Sample.ten_steps = 10
  /\ is_core_node Sample.small_grid 4
  /\ elevation
       (fields (snd (Hillslope.block7 Sample.small_grid (fun _ => Sample.idle)
                       (with_nt Sample.short_run 10)
                       (Sample.flat 9 B64.pos_zero)))) !! 4
     = accumulate add 10 (Hillslope.uplift_per_step Sample.short_run)
         <$> elevation (fields (Sample.flat (T := B64.binary64)
                                  9 B64.pos_zero)) !! 4.
Proof.
  split; [exact idle_keeps_elevation|]. split; [reflexivity|].
  split; [reflexivity|]. split; [reflexivity|]. split; [reflexivity|].
  destruct (uplift_accumulates_without_transport Sample.small_grid
              (fun _ => Sample.idle) (fun _ => Sample.idle) Sample.idle
              (fun _ => Sample.idle) Sample.short_run 10
              (Sample.flat 9 B64.pos_zero)
              (Channels.block6 9 Sample.uplift_rate) 1000 Sample.ten_steps
              (Sample.flat 9 0%Z)
              idle_keeps_elevation idle_keeps_elevation idle_keeps_elevation
              idle_keeps_elevation eq_refl eq_refl eq_refl eq_refl)
    as [(_ & Hcore & _) _].
  exact (Hcore 4 eq_refl).
Defined.


Lemma one_hundredth_positive : (0 < 1 / 100)%R.
Proof. lra. Defined.

Lemma sample_D_positive : B64.lt B64.pos_zero Sample.D.
Proof. vm_compute. reflexivity. Defined.


Lemma five_not_zero : 5%R <> 0%R.
Proof. lra. Defined.

Lemma iteration_count_is_floor_witness :
  5%R <> 0%R /\ (0 < 1 / 100)%R /\ (0 <= Sample.runtime)%Z
  /\ length (elevation (fields Sample.pile)) = length Sample.small_grid
  /\ length (elevation (fields (Sample.flat (T := B64.binary64)
                                  205 B64.pos_zero)))
     = length Sample.hillslope_grid
  /\ fst (Hillslope.run Sample.small_grid (fun _ : R => Sample.idle)
            5%R (1 / 100)%R (1 / 10000)%R Sample.runtime Sample.pile)
     = Ok tt
  /\ clock (snd (Hillslope.run Sample.hillslope_grid (fun _ => Sample.idle)
                   Sample.dx Sample.D Sample.uplift_rate Sample.runtime
                   (Sample.flat 205 B64.pos_zero)))
     = B64.of_Z Sample.runtime.
Proof.
  assert (Hrun : (0 <= Sample.runtime)%Z) by (unfold Sample.runtime; lia).
  split; [exact five_not_zero|]. split; [exact one_hundredth_positive|].
  split; [exact Hrun|]. split; [reflexivity|]. split; [reflexivity|].
  pose proof (iteration_count_is_floor Sample.small_grid
                (fun _ : R => Sample.idle) 5%R (1 / 100)%R (1 / 10000)%R
                Sample.runtime Sample.pile
                Sample.hillslope_grid (fun _ => Sample.idle)
                (Sample.flat 205 B64.pos_zero)
                five_not_zero one_hundredth_positive Hrun
                (fun _ => idle_keeps_shape) eq_refl
                (fun _ => idle_keeps_shape) eq_refl) as Hthm.
  cbv zeta in Hthm.
  destruct Hthm as [(_ & Hok & _) (_ & _ & _ & Hclock)].
  split; [exact Hok|exact Hclock].
Defined.

Lemma sample_D_valid : valid_binary B64.prec B64.emax Sample.D = true.
Proof. vm_compute. reflexivity. Defined.

Lemma analytical_profile_matches_spec_witness :
  (0 < 1 / 100)%R
  /\ valid_binary B64.prec B64.emax Sample.D = true
  /\ B64.lt B64.pos_zero Sample.D
  /\ Hillslope.zs_at 41 5%R (1 / 10000)%R (1 / 100)%R 100%R
     = Ok (parabolic_profile (1 / 10000)%R (1 / 100)%R
                             (domain_length 41 5%R) 100%R)
  /\ Hillslope.zs_at 41 Sample.dx Sample.uplift_rate Sample.D (of_int 100)
     = Ok (parabolic_profile Sample.uplift_rate Sample.D
                             (domain_length 41 Sample.dx) (of_int 100)).
Proof.
  split; [exact one_hundredth_positive|]. split; [exact sample_D_valid|].
  split; [exact sample_D_positive|].
  destruct (analytical_profile_matches_spec 41 5%R (1 / 10000)%R (1 / 100)%R
              100%R Sample.uplift_rate Sample.D (of_int 100)
              one_hundredth_positive sample_D_valid sample_D_positive)
    as (Hreal & _ & Hb64).
  split; [exact Hreal|exact Hb64].
Defined.



(* ================================================================== *)
(** * 20. When the uplift statement raises *)
(* ================================================================== *)

Section IndexErrors.
Context {T : Type}.
Implicit Types (z : list T) (idx : list nat).

(** Reading at an index array raises exactly when one of the indices is
    out of bounds, and then with [IndexError]. *)
Lemma take_at_raises z idx e :
  take_at z idx = Raise e ->
  e = IndexError /\ exists i, i ∈ idx /\ length z <= i.
Proof.
  induction idx as [|i idx IH]; cbn; [discriminate|].
  destruct (z !! i) as [x|] eqn:Ei.
  - destruct (take_at z idx) as [xs|e']; [discriminate|].
    intros E. injection E as <-.
    destruct (IH eq_refl) as (-> & j & Hj & Hlen).
    split; [reflexivity|]. exists j. split; [right; exact Hj|exact Hlen].
  - intros E. injection E as <-. split; [reflexivity|].
    exists i. split; [left|]. apply lookup_ge_None_1, Ei.
Qed.

Lemma take_at_out_of_range z idx i :
  i ∈ idx -> length z <= i -> take_at z idx = Raise IndexError.
Proof.
  intros Hi Hlen. destruct (take_at z idx) as [xs|e] eqn:E.
  - apply take_at_Forall2 in E.
    apply list_elem_of_lookup_1 in Hi as [n Hn].
    destruct (Forall2_lookup_l _ _ _ _ _ E Hn) as (x & _ & Hx).
    apply lookup_lt_Some in Hx. lia.
  - apply take_at_raises in E as [-> _]. reflexivity.
Qed.

Lemma iadd_at_raises plus z idx incr :
  (exists i, i ∈ idx /\ length z <= i)
  <-> iadd_at plus z idx incr = Raise IndexError.
Proof.
  unfold iadd_at. split.
  - intros (i & Hi & Hlen). rewrite (take_at_out_of_range z idx i Hi Hlen).
    reflexivity.
  - destruct (take_at z idx) as [xs|e] eqn:E; [discriminate|].
    intros _. apply take_at_raises in E as [_ H]. exact H.
Qed.

Lemma iadd_at_outcome plus z idx incr :
  (exists z', iadd_at plus z idx incr = Ok z')
  \/ iadd_at plus z idx incr = Raise IndexError.
Proof.
  unfold iadd_at. destruct (take_at z idx) as [xs|e] eqn:E; [eauto|].
  apply take_at_raises in E as [-> _]. right. reflexivity.
Qed.
End IndexErrors.

Section UpliftErrors.
Context {T : Type} `{PyNum T} {Aux : Type}.
Variable status : list NodeStatus.

Lemma iadd_at_core_raises (plus : T -> T -> T) (z incr : list T) :
  iadd_at plus z (core_nodes status) incr = Raise IndexError
  <-> exists i, is_core_node status i /\ length z <= i.
Proof.
  rewrite <- iadd_at_raises. split; intros (i & Hi & Hlen); exists i;
    (split; [apply core_nodes_spec, Hi|exact Hlen]).
Qed.

Lemma take_at_core_raises (z : list T) :
  take_at z (core_nodes status) = Raise IndexError
  <-> exists i, is_core_node status i /\ length z <= i.
Proof.
  split.
  - intros E. apply take_at_raises in E as [_ (i & Hi & Hlen)].
    exists i. split; [apply core_nodes_spec, Hi|exact Hlen].
  - intros (i & Hi & Hlen). apply (take_at_out_of_range z _ i); [|exact Hlen].
    apply core_nodes_spec, Hi.
Qed.

(** X1.  The uplift statement of either loop raises exactly when an array
    it indexes with [core_nodes] is too short for one of the core nodes
    (the elevation array, or in the channels loop also [uplift_rate]); the
    exception is then [IndexError] and nothing has been written: the
    elevation array, the clock and the log are as before.  In every other
    case the statement succeeds. *)
Theorem uplift_raises_iff_array_too_short
    (u : T) (wh : World T Aux T)
    (uplift_rate : list T) (dt : Z) (wc : World T Aux Z) :
  (fst (Hillslope.uplift status u wh) = Ok tt
   \/ fst (Hillslope.uplift status u wh) = Raise IndexError)
  /\ (fst (Hillslope.uplift status u wh) = Raise IndexError
      <-> exists i, is_core_node status i
                    /\ length (elevation (fields wh)) <= i)
  /\ (fst (Hillslope.uplift status u wh) = Raise IndexError ->
      snd (Hillslope.uplift status u wh) = wh)
  /\ (fst (Channels.uplift status uplift_rate dt wc) = Ok tt
      \/ fst (Channels.uplift status uplift_rate dt wc) = Raise IndexError)
  /\ (fst (Channels.uplift status uplift_rate dt wc) = Raise IndexError
      <-> exists i, is_core_node status i
                    /\ (length (elevation (fields wc)) <= i
                        \/ length uplift_rate <= i))
  /\ (fst (Channels.uplift status uplift_rate dt wc) = Raise IndexError ->
      snd (Channels.uplift status uplift_rate dt wc) = wc).
Proof.
  rewrite hillslope_uplift_unfold, channels_uplift_unfold.
  pose proof (iadd_at_outcome add (elevation (fields wh)) (core_nodes status)
                (replicate (length (core_nodes status)) u)) as Hh.
  pose proof (iadd_at_core_raises add (elevation (fields wh))
                (replicate (length (core_nodes status)) u)) as Hh'.
  pose proof (take_at_core_raises uplift_rate) as Hr'.
  split; [|split; [|split; [|split; [|split]]]].
  - destruct Hh as [[z' ->]| ->]; auto.
  - rewrite <- Hh'. destruct Hh as [[z' ->]| ->]; cbn.
    + split; discriminate.
    + split; reflexivity.
  - destruct (iadd_at _ _ _ _); [discriminate|reflexivity].
  - destruct (take_at uplift_rate (core_nodes status)) as [rates|e] eqn:Er.
    + destruct (iadd_at_outcome add (elevation (fields wc))
                  (core_nodes status)
                  (map (fun r => mul r (of_int dt)) rates)) as [[z' ->]| ->];
        auto.
    + apply take_at_raises in Er as [-> _]. auto.
  - destruct (take_at uplift_rate (core_nodes status)) as [rates|e] eqn:Er.
    + pose proof (iadd_at_outcome add (elevation (fields wc))
                    (core_nodes status)
                    (map (fun r => mul r (of_int dt)) rates)) as Hc.
      pose proof (iadd_at_core_raises add (elevation (fields wc))
                    (map (fun r => mul r (of_int dt)) rates)) as Hc'.
      destruct Hc as [[z' E]|E]; rewrite E in Hc' |- *; cbn.
      * split; [discriminate|]. intros (i & Hi & [Hlen|Hlen]).
        -- assert (Ez : Ok z' = Raise IndexError) by (apply Hc'; eauto).
           discriminate Ez.
        -- assert (Ez : Ok rates = Raise IndexError) by (apply Hr'; eauto).
           discriminate Ez.
      * split; [|reflexivity]. intros _.
        destruct Hc' as [Hc' _]. destruct (Hc' eq_refl) as (i & Hi & Hlen).
        eauto.
    + cbn. pose proof Er as Er'.
      apply take_at_raises in Er' as [-> _].
      split; [|reflexivity]. intros _.
      destruct Hr' as [Hr' _]. destruct (Hr' eq_refl) as (i & Hi & Hlen). eauto.
  - clear Hh Hh' Hr'.
    destruct (take_at uplift_rate (core_nodes status)); [|reflexivity].
    destruct (iadd_at _ _ _ _); cbn; [discriminate|reflexivity].
Qed.
End UpliftErrors.

(* ================================================================== *)
(** * 21. The loops as a whole *)
(* ================================================================== *)

Lemma rounds_succ {T} (p : Hillslope.Params (T := T)) (k : nat) :
  rounds p (S k)
  = rounds p k ++ [EvUplift; EvDiffuse (Hillslope.dt p);
                   EvTick (Hillslope.dt p)].
Proof.
  unfold rounds. rewrite replicate_S_end, concat_app. cbn [concat].
  rewrite app_nil_r. reflexivity.
Qed.

Lemma events_without_plot {T} (p : Hillslope.Params (T := T)) :
  forall n a,
    (forall i, a <= i < a + n -> Z.of_nat i <> (Hillslope.nt p / 2)%Z) ->
    flat_map (hillslope_events p) (seq a n) = rounds p n.
Proof.
  induction n as [|n IH]; intros a Hno; [reflexivity|].
  cbn [seq flat_map]. rewrite IH by (intros i Hi; apply Hno; lia).
  unfold hillslope_events.
  destruct (Z.eqb_spec (Z.of_nat a) (Hillslope.nt p / 2)) as [E|_].
  - exfalso. apply (Hno a); [lia|exact E].
  - reflexivity.
Qed.

(** The events of a whole hillslope loop of [n] iterations, [n > 0]. *)
Lemma events_with_plot {T} (p : Hillslope.Params (T := T)) (n : nat) :
  Hillslope.nt p = Z.of_nat n -> 0 < n ->
  flat_map (hillslope_events p) (seq 0 n)
  = rounds p (n / 2 + 1) ++ [EvShow] ++ rounds p (n - (n / 2 + 1)).
Proof.
  intros Hnt Hn.
  assert (Hh : (Hillslope.nt p / 2)%Z = Z.of_nat (n / 2)).
  { rewrite Hnt. rewrite Nat2Z.inj_div. reflexivity. }
  assert (Hlt : n / 2 < n) by (apply Nat.div_lt; lia).
  replace n with (n / 2 + S (n - (n / 2 + 1))) at 1 by lia.
  rewrite seq_app, flat_map_app. cbn [seq flat_map].
  rewrite !events_without_plot by (intros i Hi; rewrite Hh; lia).
  rewrite Nat.add_1_r, rounds_succ, <- !app_assoc. f_equal.
  unfold hillslope_events. rewrite Hh, Nat.add_0_l, Z.eqb_refl.
  rewrite <- !app_assoc. reflexivity.
Qed.

Lemma for_from_invariant {W} (P : W -> Prop) (body : nat -> Nb W unit) :
  (forall i w, P w -> P (snd (body i w))) ->
  forall n a w, P w -> P (snd (for_from a n body w)).
Proof.
  intros Hbody. induction n as [|n IH]; intros a w Hw; [exact Hw|].
  cbn [for_from]. unfold bind.
  pose proof (Hbody a w Hw) as Hstep.
  destruct (body a w) as [[[]|e] w1]; cbn [snd] in *.
  - apply IH, Hstep.
  - exact Hstep.
Qed.

Lemma in_range_or_not (idx : list nat) (n : nat) :
  (forall i, i ∈ idx -> i < n) \/ (exists i, i ∈ idx /\ n <= i).
Proof.
  induction idx as [|i idx IH].
  - left. intros i Hi. inversion Hi.
  - destruct (le_lt_dec n i) as [Hge|Hlt].
    + right. exists i. split; [left|exact Hge].
    + destruct IH as [IH|(j & Hj & Hge)].
      * left. intros k Hk. apply elem_of_cons in Hk as [->|Hk]; auto.
      * right. exists j. split; [right; exact Hj|exact Hge].
Qed.

Section WholeLoops.
Context {T : Type} `{PyNum T} {Aux : Type}.
Variable status : list NodeStatus.
Variable diffuse : T -> Fields T Aux -> Fields T Aux.
Variable ld : Z -> Fields T Aux -> Fields T Aux.
Variable frr : Fields T Aux -> Fields T Aux.
Variable spr : Z -> Fields T Aux -> Fields T Aux.

(** X2.  The hillslope loop plots once.  On a grid whose elevation array
    has one entry per node, a loop of [nt > 0] iterations completes, and
    its log is: [nt // 2 + 1] rounds of uplift, diffusion and clock update,
    then the plot, then the remaining [nt - (nt // 2 + 1)] rounds.  So the
    plot labelled halfway shows the state after [nt // 2 + 1] steps, and a
    loop of one iteration plots its final state.  With [nt <= 0] the loop
    does nothing at all. *)
Theorem halfway_plot_is_drawn_once
    (p : Hillslope.Params) (w : World T Aux T) :
  keeps_shape (diffuse (Hillslope.dt p)) ->
  length (elevation (fields w)) = length status ->
  exists w',
    Hillslope.block7 status diffuse p w = (Ok tt, w')
    /\ ((0 < Hillslope.nt p)%Z ->
        let n := Z.to_nat (Hillslope.nt p) in
        trace w'
        = trace w ++ rounds p (n / 2 + 1) ++ [EvShow]
                  ++ rounds p (n - (n / 2 + 1)))
    /\ ((Hillslope.nt p <= 0)%Z -> w' = w).
Proof.
  intros Hshape Hlen.
  destruct (hillslope_loop_runs status diffuse p Hshape
              (Z.to_nat (Hillslope.nt p)) 0 w Hlen)
    as (w' & E & _ & _ & Htrace).
  exists w'. split; [exact E|]. split.
  - intros Hpos n. rewrite Htrace. f_equal.
    apply events_with_plot; unfold n; lia.
  - intros Hneg. revert E. replace (Z.to_nat (Hillslope.nt p)) with 0 by lia.
    cbn. intros E. injection E as <-. reflexivity.
Qed.

Lemma channels_loop_runs (uplift_rate : list T) (dt : Z) :
  keeps_shape (ld dt) -> keeps_shape frr -> keeps_shape (spr dt) ->
  length uplift_rate = length status ->
  forall n a (w : World T Aux Z),
    length (elevation (fields w)) = length status ->
    exists w',
      for_from a n (fun _ => Channels.body ld frr spr status uplift_rate dt) w
      = (Ok tt, w')
      /\ length (elevation (fields w')) = length status
      /\ clock w' = (clock w + Z.of_nat n * dt)%Z
      /\ trace w' = trace w ++ concat (replicate n (channels_events dt)).
Proof.
  intros Hld Hfrr Hspr Hrate. induction n as [|n IH]; intros a w Hlen.
  - exists w. cbn. rewrite app_nil_r. split; [reflexivity|].
    split; [exact Hlen|]. split; [lia|reflexivity].
  - destruct (channels_uplift_ok status uplift_rate dt w Hlen Hrate)
      as (rates & z' & Er & Ez & Hz' & _ & _).
    cbn [for_from]. unfold bind. rewrite channels_body_unfold, Er, Ez.
    set (w1 := {| fields := _; clock := _; trace := _ |}).
    destruct (IH (S a) w1) as (w' & Erun & Hlen' & Hclock & Htrace).
    { unfold w1. cbn. rewrite Hspr, Hfrr, Hld. exact Hz'. }
    exists w'. split; [exact Erun|]. split; [exact Hlen'|]. split.
    + rewrite Hclock. unfold w1. cbn [clock]. lia.
    + rewrite Htrace. unfold w1. cbn [trace replicate concat].
      rewrite <- app_assoc. reflexivity.
Qed.

(** X3.  The channels loop runs once per entry of [t] and uses nothing
    else of [t].  On a grid whose arrays have one entry per node it
    completes; [total_time] is an integer and ends at its initial value
    plus [len(t) * dt], with no rounding; and each iteration calls the
    linear diffuser, the flow router and the stream-power eroder in this
    order and prints the clock. *)
Theorem channels_loop_counts_entries
    (uplift_rate : list T) (dt : Z) (t : list T) (w : World T Aux Z) :
  keeps_shape (ld dt) -> keeps_shape frr -> keeps_shape (spr dt) ->
  length uplift_rate = length status ->
  length (elevation (fields w)) = length status ->
  exists w',
    Channels.block7 ld frr spr status uplift_rate dt t w = (Ok tt, w')
    /\ length (elevation (fields w')) = length status
    /\ clock w' = (clock w + Z.of_nat (length t) * dt)%Z
    /\ trace w' = trace w ++ concat (replicate (length t) (channels_events dt)).
Proof.
  intros Hld Hfrr Hspr Hrate Hlen. rewrite channels_block7_as_range.
  apply channels_loop_runs; assumption.
Qed.

Lemma hillslope_body_keeps_boundary (p : Hillslope.Params) (i : nat)
    (w0 w : World T Aux T) (j : nat) :
  keeps_boundary status (diffuse (Hillslope.dt p)) ->
  is_boundary_node status j ->
  elevation (fields w) !! j = elevation (fields w0) !! j ->
  elevation (fields (snd (Hillslope.body status diffuse p i w))) !! j
  = elevation (fields w0) !! j.
Proof.
  intros Hd Hj Hw. rewrite hillslope_body_unfold.
  destruct (iadd_at _ _ _ _) as [z'|e] eqn:E; cbn [snd fields]; [|exact Hw].
  rewrite (Hd _ j Hj). cbn [with_elevation elevation].
  rewrite (iadd_at_other _ _ _ _ _ j E (boundary_not_core status j Hj)).
  exact Hw.
Qed.

Lemma channels_body_keeps_boundary (uplift_rate : list T) (dt : Z)
    (w0 w : World T Aux Z) (j : nat) :
  keeps_boundary status (ld dt) -> keeps_boundary status frr ->
  keeps_boundary status (spr dt) ->
  is_boundary_node status j ->
  elevation (fields w) !! j = elevation (fields w0) !! j ->
  elevation (fields (snd (Channels.body ld frr spr status uplift_rate dt w)))
    !! j
  = elevation (fields w0) !! j.
Proof.
  intros Hld Hfrr Hspr Hj Hw. rewrite channels_body_unfold.
  destruct (take_at _ _) as [rates|e]; cbn [snd]; [|exact Hw].
  destruct (iadd_at _ _ _ _) as [z'|e] eqn:E; cbn [snd fields]; [|exact Hw].
  rewrite (Hspr _ j Hj), (Hfrr _ j Hj), (Hld _ j Hj).
  cbn [with_elevation elevation].
  rewrite (iadd_at_other _ _ _ _ _ j E (boundary_not_core status j Hj)).
  exact Hw.
Qed.

(** X4.  Boundary nodes keep their elevation over a whole run.  When the
    components hold the boundary nodes fixed, the elevation of every
    boundary node after the loop, however many iterations it made and
    whether or not it ran to the end, is the elevation it started with:
    all change is on the core nodes. *)
Theorem boundary_elevation_is_fixed_over_a_run
    (p : Hillslope.Params) (wh : World T Aux T)
    (uplift_rate : list T) (dt : Z) (t : list T) (wc : World T Aux Z)
    (j : nat) :
  keeps_boundary status (diffuse (Hillslope.dt p)) ->
  keeps_boundary status (ld dt) -> keeps_boundary status frr ->
  keeps_boundary status (spr dt) ->
  is_boundary_node status j ->
  elevation (fields (snd (Hillslope.block7 status diffuse p wh))) !! j
  = elevation (fields wh) !! j
  /\ elevation (fields (snd (Channels.block7 ld frr spr status
                               uplift_rate dt t wc))) !! j
     = elevation (fields wc) !! j.
Proof.
  intros Hd Hld Hfrr Hspr Hj. split.
  - unfold Hillslope.block7, for_range.
    apply (for_from_invariant
             (fun w => elevation (fields w) !! j = elevation (fields wh) !! j));
      [|reflexivity].
    intros i w Hw. apply hillslope_body_keeps_boundary; assumption.
  - rewrite channels_block7_as_range.
    apply (for_from_invariant
             (fun w => elevation (fields w) !! j = elevation (fields wc) !! j));
      [|reflexivity].
    intros i w Hw. apply channels_body_keeps_boundary; assumption.
Qed.

Lemma hillslope_loop_total (p : Hillslope.Params) :
  keeps_shape (diffuse (Hillslope.dt p)) ->
  forall n a (w : World T Aux T),
    (forall i, i ∈ core_nodes status -> i < length (elevation (fields w))) ->
    fst (for_from a n (Hillslope.body status diffuse p) w) = Ok tt.
Proof.
  intros Hshape. induction n as [|n IH]; intros a w Hin; [reflexivity|].
  cbn [for_from]. unfold bind. rewrite hillslope_body_unfold.
  destruct (iadd_at_in_range add (elevation (fields w)) (core_nodes status)
              (replicate (length (core_nodes status))
                         (Hillslope.uplift_per_step p)) Hin) as [z' E].
  rewrite E. apply IH. cbn [fields]. intros i Hi.
  rewrite Hshape. cbn [with_elevation elevation].
  rewrite (iadd_at_length _ _ _ _ _ E). apply Hin, Hi.
Qed.

Lemma channels_loop_total (uplift_rate : list T) (dt : Z) :
  keeps_shape (ld dt) -> keeps_shape frr -> keeps_shape (spr dt) ->
  forall n a (w : World T Aux Z),
    (forall i, i ∈ core_nodes status -> i < length uplift_rate) ->
    (forall i, i ∈ core_nodes status -> i < length (elevation (fields w))) ->
    fst (for_from a n
           (fun _ => Channels.body ld frr spr status uplift_rate dt) w)
    = Ok tt.
Proof.
  intros Hld Hfrr Hspr. induction n as [|n IH]; intros a w Hrate Hin;
    [reflexivity|].
  cbn [for_from]. unfold bind. rewrite channels_body_unfold.
  destruct (take_at_in_range uplift_rate (core_nodes status) Hrate)
    as [rates Er].
  rewrite Er.
  destruct (iadd_at_in_range add (elevation (fields w)) (core_nodes status)
              (map (fun r => mul r (of_int dt)) rates) Hin) as [z' E].
  rewrite E. apply IH; [exact Hrate|]. cbn [fields]. intros i Hi.
  rewrite Hspr, Hfrr, Hld. cbn [with_elevation elevation].
  rewrite (iadd_at_length _ _ _ _ _ E). apply Hin, Hi.
Qed.

(** X5.  A loop fails in its first iteration or not at all.  With
    components that keep the shape of the elevation array, the only
    exception either loop can raise is the [IndexError] of the uplift
    statement, and it raises it in the first iteration: the kernel state
    after a failed loop is the state before it, and an array the loop
    indexes is too short for one of the core nodes.  A loop that gets
    through its first iteration runs to the end. *)
Theorem loop_fails_at_once_or_never
    (p : Hillslope.Params) (wh : World T Aux T)
    (uplift_rate : list T) (dt : Z) (t : list T) (wc : World T Aux Z) :
  keeps_shape (diffuse (Hillslope.dt p)) ->
  keeps_shape (ld dt) -> keeps_shape frr -> keeps_shape (spr dt) ->
  (forall e,
     fst (Hillslope.block7 status diffuse p wh) = Raise e ->
     e = IndexError
     /\ snd (Hillslope.block7 status diffuse p wh) = wh
     /\ exists i, is_core_node status i
                  /\ length (elevation (fields wh)) <= i)
  /\ (forall e,
        fst (Channels.block7 ld frr spr status uplift_rate dt t wc) = Raise e ->
        e = IndexError
        /\ snd (Channels.block7 ld frr spr status uplift_rate dt t wc) = wc
        /\ exists i, is_core_node status i
                     /\ (length (elevation (fields wc)) <= i
                         \/ length uplift_rate <= i)).
Proof.
  intros Hd Hld Hfrr Hspr. split; intros e.
  - unfold Hillslope.block7, for_range.
    destruct (in_range_or_not (core_nodes status)
                (length (elevation (fields wh)))) as [Hin|(i & Hi & Hge)].
    + rewrite (hillslope_loop_total p Hd _ 0 wh Hin). discriminate.
    + assert (E : iadd_at add (elevation (fields wh)) (core_nodes status)
                    (replicate (length (core_nodes status))
                               (Hillslope.uplift_per_step p))
                  = Raise IndexError)
        by (apply iadd_at_raises; eauto).
      destruct (Z.to_nat (Hillslope.nt p)) as [|n]; [discriminate|].
      cbn [for_from]. unfold bind. rewrite hillslope_body_unfold, E.
      cbn [fst snd]. intros Ee. injection Ee as <-.
      split; [reflexivity|]. split; [reflexivity|].
      exists i. split; [apply core_nodes_spec, Hi|exact Hge].
  - rewrite channels_block7_as_range.
    destruct (in_range_or_not (core_nodes status) (length uplift_rate))
      as [Hrate|(i & Hi & Hge)].
    + destruct (in_range_or_not (core_nodes status)
                  (length (elevation (fields wc)))) as [Hin|(i & Hi & Hge)].
      * rewrite (channels_loop_total uplift_rate dt Hld Hfrr Hspr _ 0 wc
                   Hrate Hin). discriminate.
      * destruct (take_at_in_range uplift_rate (core_nodes status) Hrate)
          as [rates Er].
        assert (E : iadd_at add (elevation (fields wc)) (core_nodes status)
                      (map (fun r => mul r (of_int dt)) rates)
                    = Raise IndexError)
          by (apply iadd_at_raises; eauto).
        destruct (length t) as [|n]; [discriminate|].
        cbn [for_from]. unfold bind. rewrite channels_body_unfold, Er, E.
        cbn [fst snd]. intros Ee. injection Ee as <-.
        split; [reflexivity|]. split; [reflexivity|].
        exists i. split; [apply core_nodes_spec, Hi|left; exact Hge].
    + assert (Er : take_at uplift_rate (core_nodes status) = Raise IndexError)
        by (apply (take_at_out_of_range _ _ i); assumption).
      destruct (length t) as [|n]; [discriminate|].
      cbn [for_from]. unfold bind. rewrite channels_body_unfold, Er.
      cbn [fst snd]. intros Ee. injection Ee as <-.
      split; [reflexivity|]. split; [reflexivity|].
      exists i. split; [apply core_nodes_spec, Hi|right; exact Hge].
Qed.

End WholeLoops.

Section ChannelsRun.
Context {T : Type} `{PyNum T} {Aux Rng : Type}.
Variable np_seed : Z -> Rng.
Variable np_rand : nat -> Rng -> list T * Rng.
Variable watershed_status : list T -> list NodeStatus.
Variable ld : Z -> Fields T Aux -> Fields T Aux.
Variable frr : Fields T Aux -> Fields T Aux.
Variable spr : Z -> Fields T Aux -> Fields T Aux.

Lemma block3_length (n : nat) (ambient : Rng) :
  length (fst (np_rand n (np_seed 56))) = n ->
  length (fst (Channels.block3 np_seed np_rand n ambient)) = n.
Proof.
  intros Hdraw. unfold Channels.block3. cbn [fst].
  rewrite length_zip_with, length_replicate, length_map, Hdraw. lia.
Qed.

Lemma block6_length (n : nat) (rate : T) :
  length (Channels.block6 n rate) = n.
Proof.
  unfold Channels.block6. rewrite length_map, length_replicate. reflexivity.
Qed.

(** X6.  Code Blocks 3, 6 and 7 of the channels notebook fit together.
    When the generator returns as many numbers as it is asked for and the
    library assigns a class to every node, the arrays [z1] and
    [uplift_rate] both have [number_of_nodes] entries, so the run
    completes: it makes [len(t)] iterations, ends with [total_time] equal
    to [len(t) * dt] and with an elevation array of [number_of_nodes]
    entries, and has printed the clock [len(t)] times. *)
Theorem channels_run_completes
    (n : nat) (rate : T) (dt : Z) (t : list T) (aux0 : Aux) (ambient : Rng) :
  length (fst (np_rand n (np_seed 56))) = n ->
  (forall z, length (watershed_status z) = length z) ->
  keeps_shape (ld dt) -> keeps_shape frr -> keeps_shape (spr dt) ->
  exists w',
    Channels.run np_seed np_rand watershed_status ld frr spr
                 n rate dt t aux0 ambient = (Ok tt, w')
    /\ length (elevation (fields w')) = n
    /\ clock w' = (Z.of_nat (length t) * dt)%Z
    /\ trace w' = concat (replicate (length t) (channels_events dt)).
Proof.
  intros Hdraw Hstatus Hld Hfrr Hspr. unfold Channels.run.
  pose proof (block3_length n ambient Hdraw) as Hz.
  set (z1 := fst (Channels.block3 np_seed np_rand n ambient)) in *.
  clearbody z1.
  pose proof (Hstatus z1) as Hs. rewrite Hz in Hs.
  rewrite channels_block7_as_range.
  destruct (channels_loop_runs (watershed_status z1) ld frr spr
              (Channels.block6 n rate) dt Hld Hfrr Hspr
              ltac:(rewrite block6_length; symmetry; exact Hs)
              (length t) 0
              {| fields := {| elevation := z1; derived := aux0 |};
                 clock := 0%Z; trace := [] |}
              ltac:(cbn [fields elevation]; rewrite Hz; symmetry; exact Hs))
    as (w' & E & Hlen & Hclock & Htrace).
  exists w'. split; [exact E|]. split; [rewrite Hlen; exact Hs|].
  split; [rewrite Hclock; cbn [clock]; lia|].
  rewrite Htrace. reflexivity.
Qed.

End ChannelsRun.

(* ================================================================== *)
(** * 22. Binary64 operations that do not round *)
(* ================================================================== *)

(** The operations of [SpecFloat] round their exact result to the nearest
    binary64 number.  When the exact result is a binary64 number, rounding
    returns it; the lemmas of this section establish this for the cases
    the notebooks meet. *)

Lemma iter_pos_as_iter {A} (f : A -> A) (p : positive) :
  forall x, SpecFloat.iter_pos f p x = Pos.iter f x p.
Proof.
  induction p as [p IH|p IH|]; intros x; cbn.
  - rewrite !IH, !Pos.iter_swap. reflexivity.
  - rewrite !IH. reflexivity.
  - reflexivity.
Qed.

Lemma pos_iter_xO (m p : positive) :
  Z.pos (Pos.iter xO m p) = (Z.pos m * 2 ^ Z.pos p)%Z.
Proof.
  induction p as [|p IH] using Pos.peano_ind.
  - cbn. lia.
  - rewrite Pos.iter_succ, Pos2Z.inj_succ, Z.pow_succ_r by lia.
    rewrite Pos2Z.inj_xO, IH. lia.
Qed.

Lemma shr_exact (m p : positive) :
  SpecFloat.iter_pos shr_1 p {| shr_m := Z.pos (Pos.iter xO m p);
                      shr_r := false; shr_s := false |}
  = {| shr_m := Z.pos m; shr_r := false; shr_s := false |}.
Proof.
  rewrite iter_pos_as_iter.
  induction p as [|p IH] using Pos.peano_ind.
  - reflexivity.
  - rewrite Pos.iter_succ_r, Pos.iter_succ. cbn [shr_1 orb]. exact IH.
Qed.

Lemma bounded_spec (m : positive) (e : Z) :
  bounded B64.prec B64.emax m e = true
  <-> (Z.max (Z.pos (digits2_pos m) + e - 53) (-1074) = e /\ e <= 971)%Z.
Proof.
  unfold bounded, canonical_mantissa, fexp, emin, B64.prec, B64.emax.
  rewrite andb_true_iff, Z.eqb_eq, Z.leb_le. reflexivity.
Qed.

(** Rounding [n * 2^e] when it is the binary64 number [m * 2^f], given at
    a finer exponent [e <= f]: the result is that number. *)
Lemma round_aux_exact (s : bool) (n m : positive) (e f : Z) :
  bounded B64.prec B64.emax m f = true ->
  (e <= f)%Z ->
  Z.pos n = (Z.pos m * 2 ^ (f - e))%Z ->
  binary_round_aux B64.prec B64.emax s (Z.pos n) e loc_Exact
  = S754_finite s m f.
Proof.
  intros Hb Hef Hn. apply bounded_spec in Hb as [Hc Hmax].
  assert (E2 : shr_fexp B64.prec B64.emax (Z.pos m) f loc_Exact
               = ({| shr_m := Z.pos m; shr_r := false; shr_s := false |}, f)).
  { unfold shr_fexp, fexp, emin, Zdigits2, B64.prec, B64.emax.
    replace (Z.max (Z.pos (digits2_pos m) + f - 53) (3 - 1024 - 53) - f)%Z
      with 0%Z by lia.
    reflexivity. }
  assert (E1 : shr_fexp B64.prec B64.emax (Z.pos n) e loc_Exact
               = ({| shr_m := Z.pos m; shr_r := false; shr_s := false |}, f)).
  { destruct (f - e)%Z as [|p|p] eqn:Ek; [| |lia].
    - assert (e = f) by lia. subst e.
      assert (n = m) by lia. subst n. exact E2.
    - rewrite <- pos_iter_xO in Hn. injection Hn as ->.
      unfold shr_fexp, fexp, emin, Zdigits2, B64.prec, B64.emax.
      rewrite digits2_pos_shifted.
      replace (Z.max (Z.pos (digits2_pos m) + Z.pos p + e - 53)
                     (3 - 1024 - 53) - e)%Z
        with (Z.pos p) by lia.
      unfold shr, shr_record_of_loc. rewrite shr_exact.
      f_equal. lia. }
  unfold binary_round_aux. rewrite E1.
  cbn [shr_m loc_of_shr_record round_nearest_even]. rewrite E2. cbn [shr_m].
  unfold B64.emax, B64.prec.
  destruct (Z.leb_spec f (1024 - 53)) as [_|Hgt]; [reflexivity|lia].
Qed.

(** Rounding [n * 2^e] when it is the binary64 number [m * 2^f]. *)
Lemma round_exact (s : bool) (n m : positive) (e f : Z) :
  bounded B64.prec B64.emax m f = true ->
  (Z.pos n * 2 ^ (e - Z.min e f) = Z.pos m * 2 ^ (f - Z.min e f))%Z ->
  binary_round B64.prec B64.emax s n e = S754_finite s m f.
Proof.
  intros Hb Hn. pose proof Hb as Hb'. apply bounded_spec in Hb' as [Hc Hmax].
  unfold binary_round.
  destruct (Z_le_gt_dec e f) as [Hef|Hef].
  - rewrite Z.min_l, Z.sub_diag, Z.pow_0_r, Z.mul_1_r in Hn by lia.
    assert (Hd : (Z.pos (digits2_pos n) + e = Z.pos (digits2_pos m) + f)%Z).
    { destruct (f - e)%Z as [|p|p] eqn:Ek; [| |lia].
      - assert (n = m) by lia. subst n. lia.
      - rewrite <- pos_iter_xO in Hn. injection Hn as ->.
        rewrite digits2_pos_shifted. lia. }
    unfold shl_align, fexp, emin, B64.prec, B64.emax. rewrite Hd.
    replace (Z.max (Z.pos (digits2_pos m) + f - 53) (3 - 1024 - 53))%Z
      with f by lia.
    destruct (f - e)%Z as [|p|p] eqn:Ek; [| |lia].
    + apply round_aux_exact; [exact Hb|lia|]. rewrite Ek. exact Hn.
    + apply round_aux_exact; [exact Hb|lia|]. rewrite Ek. exact Hn.
  - rewrite Z.min_r, Z.sub_diag, Z.pow_0_r, Z.mul_1_r in Hn by lia.
    destruct (e - f)%Z as [|p|p] eqn:Ek; [lia| |lia].
    symmetry in Hn. rewrite <- pos_iter_xO in Hn. injection Hn as ->.
    rewrite digits2_pos_shifted in Hc.
    unfold shl_align, fexp, emin, B64.prec, B64.emax.
    replace (Z.max (Z.pos (digits2_pos n) + e - 53) (3 - 1024 - 53))%Z
      with f by lia.
    replace (f - e)%Z with (Z.neg p) by lia.
    apply round_aux_exact; [exact Hb|lia|].
    rewrite Z.sub_diag, Z.pow_0_r. lia.
Qed.

Lemma digits2_pos_bounds (n : positive) :
  (2 ^ (Z.pos (digits2_pos n) - 1) <= Z.pos n < 2 ^ Z.pos (digits2_pos n))%Z.
Proof.
  induction n as [n IH|n IH|]; cbn [digits2_pos].
  - rewrite Pos2Z.inj_succ, (Pos2Z.inj_xI n).
    replace (Z.succ (Z.pos (digits2_pos n)) - 1)%Z
      with (Z.succ (Z.pos (digits2_pos n) - 1)) by lia.
    rewrite !Z.pow_succ_r by lia. lia.
  - rewrite Pos2Z.inj_succ, (Pos2Z.inj_xO n).
    replace (Z.succ (Z.pos (digits2_pos n)) - 1)%Z
      with (Z.succ (Z.pos (digits2_pos n) - 1)) by lia.
    rewrite !Z.pow_succ_r by lia. lia.
  - cbn. lia.
Qed.

Lemma digits2_pos_le (n : positive) (k : Z) :
  (Z.pos n < 2 ^ k)%Z -> (Z.pos (digits2_pos n) <= k)%Z.
Proof.
  intros Hn. destruct (digits2_pos_bounds n) as [Hlow _].
  destruct (Z_le_gt_dec (Z.pos (digits2_pos n)) k) as [|Hgt]; [assumption|].
  exfalso.
  assert (0 <= k)%Z.
  { destruct (Z_le_gt_dec 0 k); [assumption|].
    rewrite Z.pow_neg_r in Hn by lia. lia. }
  assert (2 ^ k <= 2 ^ (Z.pos (digits2_pos n) - 1))%Z
    by (apply Z.pow_le_mono_r; lia).
  lia.
Qed.

Lemma digits2_pos_mul (a b : positive) :
  (Z.pos (digits2_pos (a * b)) <= Z.pos (digits2_pos a) + Z.pos (digits2_pos b))%Z.
Proof.
  apply digits2_pos_le. rewrite Pos2Z.inj_mul, Z.pow_add_r by lia.
  destruct (digits2_pos_bounds a) as [_ Ha].
  destruct (digits2_pos_bounds b) as [_ Hb]. nia.
Qed.

(** The binary64 number [1.0 * x] is [x]. *)
Lemma b64_one_mul (x : B64.binary64) :
  valid_binary B64.prec B64.emax x = true ->
  SFmul B64.prec B64.emax B64.one x = x.
Proof.
  change B64.one with (S754_finite false 4503599627370496 (-52)).
  destruct x as [s|s| |s m e]; cbn [valid_binary SFmul xorb];
    try reflexivity.
  intros Hb. apply round_aux_exact; [exact Hb|lia|].
  replace (e - (-52 + e))%Z with 52%Z by lia. lia.
Qed.

Lemma b64_sub_zero (x : B64.binary64) :
  SFsub B64.prec B64.emax x (S754_zero false) = x.
Proof. destruct x as [[]|[]| |[] m e]; reflexivity. Qed.

Lemma b64_sub_self (x : B64.binary64) :
  is_finite x = true -> SFsub B64.prec B64.emax x x = S754_zero false.
Proof.
  destruct x as [s|s| |s m e]; cbn [is_finite]; try discriminate; intros _.
  - destruct s; reflexivity.
  - unfold SFsub. rewrite Z.sub_diag. reflexivity.
Qed.

(** The canonical representation of [a * 2^q] for [0 < a < 2^53]. *)
Lemma dyadic_form (q a : Z) :
  (0 < a < 2 ^ 53)%Z -> (-1074 <= q <= 971)%Z ->
  exists m f,
    dyadic q a = S754_finite false m f
    /\ bounded B64.prec B64.emax m f = true
    /\ (f <= q)%Z
    /\ Z.pos m = (a * 2 ^ (q - f))%Z.
Proof.
  intros Ha Hq. destruct a as [|n|n]; [lia| |lia].
  pose proof (digits2_pos_le n 53 (proj2 Ha)) as Hd.
  set (f := Z.max (Z.pos (digits2_pos n) + q - 53) (-1074)).
  assert (Hf : (f <= q)%Z) by (unfold f; lia).
  assert (Hm : exists m, Z.pos m = (Z.pos n * 2 ^ (q - f))%Z).
  { destruct (q - f)%Z as [|p|p] eqn:Ek; [| |lia].
    - exists n. lia.
    - exists (Pos.iter xO n p). apply pos_iter_xO. }
  destruct Hm as [m Hm].
  assert (Hdm : (Z.pos (digits2_pos m) = Z.pos (digits2_pos n) + (q - f))%Z).
  { destruct (q - f)%Z as [|p|p] eqn:Ek; [| |lia].
    - assert (m = n) by lia. subst m. lia.
    - rewrite <- pos_iter_xO in Hm. injection Hm as ->.
      apply digits2_pos_shifted. }
  assert (Hb : bounded B64.prec B64.emax m f = true).
  { apply bounded_spec. rewrite Hdm. unfold f. lia. }
  exists m, f. split; [|auto].
  unfold dyadic, binary_normalize. apply round_exact; [exact Hb|].
  rewrite Z.min_r, Z.sub_diag, Z.pow_0_r by lia. lia.
Qed.

(** [dyadic_form] with the number of digits of the mantissa. *)
Lemma dyadic_form_digits (q : Z) (a : positive) :
  (Z.pos a < 2 ^ 53)%Z -> (-1074 <= q <= 971)%Z ->
  exists m f,
    dyadic q (Z.pos a) = S754_finite false m f
    /\ bounded B64.prec B64.emax m f = true
    /\ (f <= q)%Z
    /\ Z.pos m = (Z.pos a * 2 ^ (q - f))%Z
    /\ (Z.pos (digits2_pos m) + f = Z.pos (digits2_pos a) + q)%Z.
Proof.
  intros Ha Hq.
  destruct (dyadic_form q (Z.pos a)) as (m & f & E & Hb & Hf & Hm); [lia|lia|].
  exists m, f. repeat (split; [assumption|]).
  destruct (q - f)%Z as [|p|p] eqn:Ek; [| |lia].
  - assert (m = a) by lia. subst m. lia.
  - rewrite <- pos_iter_xO in Hm. injection Hm as ->.
    rewrite digits2_pos_shifted. lia.
Qed.

Lemma dyadic_zero (q : Z) : dyadic q 0 = S754_zero false.
Proof. reflexivity. Qed.

(** Rescaling a representable number does not change it. *)
Lemma dyadic_rescale (q k a : Z) :
  (0 <= a < 2 ^ 53)%Z -> (-1074 <= q <= 971)%Z -> (0 <= k)%Z ->
  dyadic (q - k) (a * 2 ^ k) = dyadic q a.
Proof.
  intros Ha Hq Hk.
  destruct (Z.eq_dec a 0%Z) as [->|Hnz]; [reflexivity|].
  destruct (dyadic_form q a) as (m & f & -> & Hb & Hf & Hm); [lia|lia|].
  assert (Hpos : (0 < a * 2 ^ k)%Z).
  { apply Z.mul_pos_pos; [lia|]. apply Z.pow_pos_nonneg; lia. }
  destruct (a * 2 ^ k)%Z as [|n|n] eqn:En; [lia| |lia].
  unfold dyadic, binary_normalize. apply round_exact; [exact Hb|].
  rewrite Hm, <- En, <- !Z.mul_assoc, <- !Z.pow_add_r by lia.
  do 2 f_equal. lia.
Qed.

(** Two representable multiples of [2^q] whose sum is representable add
    without rounding. *)
Lemma dyadic_add (q a b : Z) :
  (0 <= a)%Z -> (0 <= b)%Z -> (a + b < 2 ^ 53)%Z -> (-1074 <= q <= 971)%Z ->
  SFadd B64.prec B64.emax (dyadic q a) (dyadic q b) = dyadic q (a + b).
Proof.
  intros Ha Hb Hab Hq.
  destruct (Z.eq_dec a 0%Z) as [->|Hanz].
  { rewrite dyadic_zero, Z.add_0_l.
    destruct (Z.eq_dec b 0%Z) as [->|Hbnz]; [reflexivity|].
    destruct (dyadic_form q b) as (m & f & -> & _); [lia|lia|reflexivity]. }
  destruct (dyadic_form q a) as (ma & fa & Ea & _ & Hfa & Hma); [lia|lia|].
  destruct (Z.eq_dec b 0%Z) as [->|Hbnz].
  { rewrite dyadic_zero, Z.add_0_r, Ea. reflexivity. }
  destruct (dyadic_form q b) as (mb & fb & Eb & _ & Hfb & Hmb); [lia|lia|].
  rewrite Ea, Eb. unfold SFadd. cbn [cond_Zopp].
  set (ez := Z.min fa fb).
  assert (Ha' : Z.pos (fst (shl_align ma fa ez)) = (a * 2 ^ (q - ez))%Z).
  { unfold shl_align. destruct (ez - fa)%Z as [|p|p] eqn:Ek; cbn [fst].
    - rewrite Hma. do 2 f_equal. lia.
    - unfold ez in Ek. lia.
    - rewrite pos_iter_xO, Hma, <- Z.mul_assoc, <- Z.pow_add_r by lia.
      do 2 f_equal. lia. }
  assert (Hb' : Z.pos (fst (shl_align mb fb ez)) = (b * 2 ^ (q - ez))%Z).
  { unfold shl_align. destruct (ez - fb)%Z as [|p|p] eqn:Ek; cbn [fst].
    - rewrite Hmb. do 2 f_equal. lia.
    - unfold ez in Ek. lia.
    - rewrite pos_iter_xO, Hmb, <- Z.mul_assoc, <- Z.pow_add_r by lia.
      do 2 f_equal. lia. }
  rewrite Ha', Hb', <- Z.mul_add_distr_r.
  change (binary_normalize B64.prec B64.emax ((a + b) * 2 ^ (q - ez)) ez false)
    with (dyadic ez ((a + b) * 2 ^ (q - ez))).
  replace ez with (q - (q - ez))%Z at 1 by lia.
  apply dyadic_rescale; [lia|lia|unfold ez; lia].
Qed.

Lemma dyadic_sub (q a b : Z) :
  (0 <= b <= a)%Z -> (a < 2 ^ 53)%Z -> (-1074 <= q <= 971)%Z ->
  SFsub B64.prec B64.emax (dyadic q a) (dyadic q b) = dyadic q (a - b).
Proof.
  intros Hb Ha Hq.
  destruct (Z.eq_dec b 0%Z) as [->|Hbnz].
  { rewrite dyadic_zero, Z.sub_0_r. apply b64_sub_zero. }
  destruct (dyadic_form q a) as (ma & fa & Ea & _ & Hfa & Hma); [lia|lia|].
  destruct (dyadic_form q b) as (mb & fb & Eb & _ & Hfb & Hmb); [lia|lia|].
  rewrite Ea, Eb. unfold SFsub. cbn [cond_Zopp].
  set (ez := Z.min fa fb).
  assert (Ha' : Z.pos (fst (shl_align ma fa ez)) = (a * 2 ^ (q - ez))%Z).
  { unfold shl_align. destruct (ez - fa)%Z as [|p|p] eqn:Ek; cbn [fst].
    - rewrite Hma. do 2 f_equal. lia.
    - unfold ez in Ek. lia.
    - rewrite pos_iter_xO, Hma, <- Z.mul_assoc, <- Z.pow_add_r by lia.
      do 2 f_equal. lia. }
  assert (Hb' : Z.pos (fst (shl_align mb fb ez)) = (b * 2 ^ (q - ez))%Z).
  { unfold shl_align. destruct (ez - fb)%Z as [|p|p] eqn:Ek; cbn [fst].
    - rewrite Hmb. do 2 f_equal. lia.
    - unfold ez in Ek. lia.
    - rewrite pos_iter_xO, Hmb, <- Z.mul_assoc, <- Z.pow_add_r by lia.
      do 2 f_equal. lia. }
  rewrite Ha', Hb', <- Z.mul_sub_distr_r.
  change (binary_normalize B64.prec B64.emax ((a - b) * 2 ^ (q - ez)) ez false)
    with (dyadic ez ((a - b) * 2 ^ (q - ez))).
  replace ez with (q - (q - ez))%Z at 1 by lia.
  apply dyadic_rescale; [lia|lia|unfold ez; lia].
Qed.

Lemma dyadic_accumulate (q d : Z) (k : nat) :
  forall c,
    (0 <= c)%Z -> (0 <= d)%Z -> (c + Z.of_nat k * d < 2 ^ 53)%Z ->
    (-1074 <= q <= 971)%Z ->
    accumulate (SFadd B64.prec B64.emax) k (dyadic q d) (dyadic q c)
    = dyadic q (c + Z.of_nat k * d).
Proof.
  induction k as [|k IH]; intros c Hc Hd Hsum Hq.
  - cbn. f_equal. lia.
  - rewrite accumulate_succ, dyadic_add by nia.
    rewrite IH by nia. f_equal. lia.
Qed.

Lemma b64_lt_scaled (mx my : positive) (ex ey : Z) :
  bounded B64.prec B64.emax mx ex = true ->
  bounded B64.prec B64.emax my ey = true ->
  B64.lt (S754_finite false mx ex) (S754_finite false my ey) ->
  (ex <= ey)%Z /\ (Z.pos mx < Z.pos my * 2 ^ (ey - ex))%Z.
Proof.
  intros Hx Hy. apply bounded_spec in Hx as [Hcx _].
  apply bounded_spec in Hy as [Hcy _].
  unfold B64.lt, SFltb, SFcompare.
  destruct (Z.compare_spec ex ey) as [->|Hlt|Hgt]; [| |discriminate].
  - intros Hm. split; [lia|]. rewrite Z.sub_diag, Z.pow_0_r, Z.mul_1_r.
    change (Pos.compare_cont Eq mx my) with (Pos.compare mx my) in Hm.
    destruct (Pos.compare_spec mx my); [discriminate|lia|discriminate].
  - intros _. split; [lia|].
    destruct (digits2_pos_bounds mx) as [_ Hux].
    destruct (digits2_pos_bounds my) as [Hly _].
    assert (Hdx : (Z.pos (digits2_pos mx) <= 53)%Z) by lia.
    assert (Hdy : Z.pos (digits2_pos my) = 53%Z) by lia.
    rewrite Hdy in Hly.
    assert (2 ^ Z.pos (digits2_pos mx) <= 2 ^ 53)%Z
      by (apply Z.pow_le_mono_r; lia).
    assert (2 ^ 1 <= 2 ^ (ey - ex))%Z by (apply Z.pow_le_mono_r; lia).
    change (2 ^ (53 - 1))%Z with 4503599627370496%Z in Hly.
    change (2 ^ 53)%Z with 9007199254740992%Z in *.
    change (2 ^ 1)%Z with 2%Z in *. nia.
Qed.

(** The remainder of a number by a larger one is the number. *)
Lemma b64_fmod_small (x y : B64.binary64) :
  valid_binary B64.prec B64.emax x = true ->
  valid_binary B64.prec B64.emax y = true ->
  B64.lt B64.pos_zero x -> B64.lt x y ->
  B64.fmod x y = x.
Proof.
  intros Hvx Hvy Hpos Hlt. pose proof Hlt as Hlt'.
  unfold B64.lt, B64.pos_zero in Hpos, Hlt.
  destruct x as [[]|[]| |[] mx ex]; try (cbn in Hpos; discriminate);
    destruct y as [[]|[]| |[] my ey]; try (cbn in Hlt; discriminate).
  - reflexivity.
  - cbn [valid_binary] in Hvx, Hvy.
    destruct (b64_lt_scaled mx my ex ey Hvx Hvy Hlt') as [He Hm].
    unfold B64.fmod, B64.scaled. rewrite Z.min_l by lia.
    rewrite Z.sub_diag, Z.pow_0_r, Z.mul_1_r.
    rewrite Z.rem_small by lia. cbn [cond_Zopp binary_normalize].
    apply round_exact; [exact Hvx|]. rewrite Z.min_id. reflexivity.
Qed.

Lemma b64_floor_div_small (x y : B64.binary64) :
  valid_binary B64.prec B64.emax x = true ->
  valid_binary B64.prec B64.emax y = true ->
  B64.lt x y -> B64.is_neg x = false ->
  B64.trunc (B64.floor_div x y) = Ok 0%Z.
Proof.
  intros Hvx Hvy Hlt Hneg. pose proof Hlt as Hlt'.
  unfold B64.lt in Hlt. unfold B64.is_neg, B64.pos_zero in Hneg.
  assert (Hzero : forall z, B64.trunc (B64.zero_with_sign_of z) = Ok 0%Z)
    by (intros [?|?| |? ? ?]; reflexivity).
  assert (Hy : B64.is_neg y = false
               /\ (exists s, SFdiv B64.prec B64.emax (S754_zero false) y
                             = S754_zero s)).
  { clear Hlt' Hvx Hvy.
    destruct x as [[]|[]| |[] mx ex], y as [[]|[]| |[] my ey];
      cbn in Hlt, Hneg; try discriminate;
      (split; [reflexivity|eexists; reflexivity]). }
  destruct Hy as [Hyneg [s Hdiv]].
  destruct x as [sx|[]| |[] mx ex]; try (cbn in Hneg; discriminate).
  - (* the dividend is zero *)
    assert (Hmd : B64.fmod (S754_zero sx) y = S754_zero sx).
    { clear Hlt' Hdiv. destruct sx, y as [[]|[]| |[] my ey];
        cbn in Hlt, Hyneg; try discriminate; reflexivity. }
    unfold B64.floor_div. rewrite Hmd. cbn [B64.is_zero].
    assert (Hdv : SFdiv B64.prec B64.emax
                    (SFsub B64.prec B64.emax (S754_zero sx) (S754_zero sx)) y
                  = S754_zero s).
    { destruct sx; exact Hdiv. }
    rewrite Hdv. cbn [B64.is_zero]. apply Hzero.
  - clear Hlt'. destruct y as [[]|[]| |[] my ey]; cbn in Hlt; discriminate.
  - assert (Hmd : B64.fmod (S754_finite false mx ex) y
                  = S754_finite false mx ex)
      by (apply b64_fmod_small; [assumption|assumption|reflexivity|exact Hlt']).
    unfold B64.floor_div. rewrite Hmd.
    rewrite b64_sub_self by reflexivity. rewrite Hdiv.
    cbn [B64.is_zero]. rewrite Hyneg. cbn. apply Hzero.
Qed.

Lemma dyadic_fmod (q n d : Z) :
  (0 <= n < 2 ^ 53)%Z -> (0 < d < 2 ^ 53)%Z -> (-1074 <= q <= 971)%Z ->
  B64.fmod (dyadic q n) (dyadic q d) = dyadic q (n mod d).
Proof.
  intros Hn Hd Hq.
  destruct (dyadic_form q d) as (my & fy & Ey & _ & Hfy & Hmy); [lia|lia|].
  rewrite Ey.
  destruct (Z.eq_dec n 0%Z) as [->|Hnz]; [reflexivity|].
  destruct (dyadic_form q n) as (mx & fx & Ex & _ & Hfx & Hmx); [lia|lia|].
  rewrite Ex. unfold B64.fmod, B64.scaled. cbn [cond_Zopp].
  set (e0 := Z.min fx fy).
  replace (Z.pos mx * 2 ^ (fx - e0))%Z with (n * 2 ^ (q - e0))%Z.
  2:{ rewrite Hmx, <- Z.mul_assoc, <- Z.pow_add_r by (unfold e0; lia).
      do 2 f_equal. lia. }
  replace (Z.pos my * 2 ^ (fy - e0))%Z with (d * 2 ^ (q - e0))%Z.
  2:{ rewrite Hmy, <- Z.mul_assoc, <- Z.pow_add_r by (unfold e0; lia).
      do 2 f_equal. lia. }
  assert (Hpow : (0 < 2 ^ (q - e0))%Z)
    by (apply Z.pow_pos_nonneg; unfold e0; lia).
  rewrite Z.rem_mod_nonneg by nia.
  rewrite Z.mul_mod_distr_r by lia.
  change (binary_normalize B64.prec B64.emax (n mod d * 2 ^ (q - e0)) e0 false)
    with (dyadic e0 (n mod d * 2 ^ (q - e0))).
  replace e0 with (q - (q - e0))%Z at 1 by lia.
  pose proof (Z.mod_pos_bound n d (proj1 Hd)).
  apply dyadic_rescale; [lia|lia|unfold e0; lia].
Qed.

Lemma new_location_exact (m : Z) : new_location m 0 = loc_Exact.
Proof.
  unfold new_location. destruct (Z.even m); reflexivity.
Qed.

(** An exact quotient of representable numbers is not rounded. *)
Lemma dyadic_div (q Q d : Z) :
  (0 <= Q)%Z -> (0 < d < 2 ^ 53)%Z -> (Q * d < 2 ^ 53)%Z ->
  (-1074 <= q <= 971)%Z ->
  SFdiv B64.prec B64.emax (dyadic q (Q * d)) (dyadic q d) = dyadic 0 Q.
Proof.
  intros HQ Hd HQd Hq.
  destruct d as [|d|d]; [lia| |lia].
  destruct (dyadic_form_digits q d) as (m2 & f2 & E2 & _ & Hf2 & Hm2 & Hd2);
    [lia|lia|].
  rewrite E2.
  destruct Q as [|Q|Q]; [reflexivity| |lia].
  assert (HQ53 : (Z.pos Q < 2 ^ 53)%Z) by nia.
  change (Z.pos Q * Z.pos d)%Z with (Z.pos (Q * d)) in *.
  destruct (dyadic_form_digits q (Q * d)) as (m1 & f1 & E1 & _ & Hf1 & Hm1 & Hd1);
    [lia|lia|].
  destruct (dyadic_form_digits 0 Q) as (mq & fq & Eq & Hbq & Hfq & Hmq & Hdq);
    [lia|lia|].
  rewrite E1, Eq. unfold SFdiv, SFdiv_core_binary. cbn [xorb Zdigits2].
  set (e' := Z.min (fexp B64.prec B64.emax
                      (Z.pos (digits2_pos m1) + f1
                       - (Z.pos (digits2_pos m2) + f2))) (f1 - f2)).
  pose proof (digits2_pos_mul Q d) as Hmul.
  pose proof Hbq as Hbq'. apply bounded_spec in Hbq' as [Hcq _].
  assert (He' : (e' <= fq)%Z).
  { unfold e', fexp, emin, B64.prec, B64.emax. lia. }
  assert (Hs : (0 <= f1 - f2 - e')%Z) by (unfold e'; lia).
  set (m' := match (f1 - f2 - e')%Z with
             | 0%Z => Z.pos m1
             | Z.pos _ => Z.shiftl (Z.pos m1) (f1 - f2 - e')
             | Z.neg _ => 0%Z
             end).
  assert (Em' : m' = (Z.pos mq * 2 ^ (fq - e') * Z.pos m2)%Z).
  { transitivity (Z.pos m1 * 2 ^ (f1 - f2 - e'))%Z.
    - unfold m'. destruct (f1 - f2 - e')%Z as [|p|p] eqn:Es; [| |lia].
      + rewrite Z.pow_0_r. lia.
      + apply Z.shiftl_mul_pow2. lia.
    - rewrite Hm1, Hm2, Hmq, Pos2Z.inj_mul.
      replace (Z.pos Q * Z.pos d * 2 ^ (q - f1) * 2 ^ (f1 - f2 - e'))%Z
        with (Z.pos Q * Z.pos d * (2 ^ (q - f1) * 2 ^ (f1 - f2 - e')))%Z
        by ring.
      replace (Z.pos Q * 2 ^ (0 - fq) * 2 ^ (fq - e')
               * (Z.pos d * 2 ^ (q - f2)))%Z
        with (Z.pos Q * Z.pos d
              * (2 ^ (0 - fq) * 2 ^ (fq - e') * 2 ^ (q - f2)))%Z by ring.
      rewrite <- !Z.pow_add_r by lia. do 2 f_equal. lia. }
  assert (Hk : exists k, Z.pos k = (Z.pos mq * 2 ^ (fq - e'))%Z).
  { assert (0 < Z.pos mq * 2 ^ (fq - e'))%Z.
    { apply Z.mul_pos_pos; [lia|]. apply Z.pow_pos_nonneg; lia. }
    destruct (Z.pos mq * 2 ^ (fq - e'))%Z as [|k|k]; [lia| |lia].
    exists k. reflexivity. }
  destruct Hk as [k Hk]. rewrite <- Hk in Em'.
  assert (Ediv : Z.div_eucl m' (Z.pos m2) = (Z.pos k, 0%Z)).
  { pose proof (Z.div_mul (Z.pos k) (Z.pos m2)) as Hq0.
    pose proof (Z.mod_mul (Z.pos k) (Z.pos m2)) as Hr0.
    rewrite <- Em' in Hq0, Hr0. unfold Z.div, Z.modulo in Hq0, Hr0.
    destruct (Z.div_eucl m' (Z.pos m2)) as [q0 r0]. cbn [fst snd] in *.
    rewrite Hq0, Hr0 by lia. reflexivity. }
  fold m'. rewrite Ediv, new_location_exact.
  apply round_aux_exact; [exact Hbq|exact He'|exact Hk].
Qed.

Lemma dyadic_floor (Q : Z) :
  (0 <= Q < 2 ^ 53)%Z -> B64.floor (dyadic 0 Q) = dyadic 0 Q.
Proof.
  intros HQ. destruct (Z.eq_dec Q 0%Z) as [->|Hnz]; [reflexivity|].
  destruct (dyadic_form 0 Q) as (m & f & E & _ & Hf & Hm); [lia|lia|].
  rewrite E. unfold B64.floor.
  destruct (Z.leb_spec 0 f) as [_|Hneg]; [reflexivity|].
  cbn [cond_Zopp]. rewrite Hm.
  replace (0 - f)%Z with (- f)%Z by lia.
  rewrite Z.div_mul by (apply Z.pow_nonzero; lia).
  exact E.
Qed.

Lemma dyadic_trunc (Q : Z) :
  (0 <= Q < 2 ^ 53)%Z -> B64.trunc (dyadic 0 Q) = Ok Q.
Proof.
  intros HQ. destruct (Z.eq_dec Q 0%Z) as [->|Hnz]; [reflexivity|].
  destruct (dyadic_form 0 Q) as (m & f & E & _ & Hf & Hm); [lia|lia|].
  rewrite E. unfold B64.trunc. cbn [cond_Zopp]. f_equal.
  destruct (Z.leb_spec 0 f) as [Hpos|Hneg].
  - assert (f = 0%Z) by lia. subst f. rewrite Hm. cbn. lia.
  - rewrite Hm. replace (0 - f)%Z with (- f)%Z by lia.
    apply Z.div_mul, Z.pow_nonzero; lia.
Qed.

(** Floor division of representable multiples of [2^q] is the floor
    division of the integers. *)
Lemma dyadic_floor_div (q n d : Z) :
  (0 <= n < 2 ^ 53)%Z -> (0 < d < 2 ^ 53)%Z -> (-1074 <= q <= 971)%Z ->
  B64.trunc (B64.floor_div (dyadic q n) (dyadic q d)) = Ok (n / d)%Z.
Proof.
  intros Hn Hd Hq.
  pose proof (Z.mod_pos_bound n d (proj1 Hd)) as Hr.
  pose proof (Z.div_mod n d ltac:(lia)) as Hdm.
  assert (HQ : (0 <= n / d)%Z) by (apply Z.div_pos; lia).
  assert (HQd : (n / d * d <= n)%Z) by lia.
  assert (Hzero : forall z, B64.trunc (B64.zero_with_sign_of z) = Ok 0%Z)
    by (intros [?|?| |? ? ?]; reflexivity).
  unfold B64.floor_div. rewrite dyadic_fmod by assumption.
  rewrite dyadic_sub by lia.
  replace (n - n mod d)%Z with (n / d * d)%Z by lia.
  rewrite dyadic_div by lia.
  assert (Hdv : (if B64.is_zero (dyadic q (n mod d)) then dyadic 0 (n / d)
                 else if negb (Bool.eqb (B64.is_neg (dyadic q d))
                                        (B64.is_neg (dyadic q (n mod d))))
                      then SFsub B64.prec B64.emax (dyadic 0 (n / d)) B64.one
                      else dyadic 0 (n / d))
                = dyadic 0 (n / d)).
  { destruct (dyadic_form q d) as (my & fy & -> & _); [lia|lia|].
    destruct (Z.eq_dec (n mod d)%Z 0%Z) as [->|Hrnz]; [reflexivity|].
    destruct (dyadic_form q (n mod d)) as (mr & fr & -> & _); [lia|lia|].
    reflexivity. }
  rewrite Hdv.
  destruct (Z.eq_dec (n / d)%Z 0%Z) as [->|HQnz]; [apply Hzero|].
  assert (Hnz : B64.is_zero (dyadic 0 (n / d)) = false).
  { destruct (dyadic_form 0 (n / d)) as (m & f & -> & _); [nia|lia|].
    reflexivity. }
  rewrite Hnz, dyadic_floor by nia.
  rewrite b64_sub_self.
  2:{ destruct (dyadic_form 0 (n / d)) as (m & f & -> & _); [nia|lia|].
      reflexivity. }
  change (SFltb B64.onehalf (S754_zero false)) with false. cbn iota.
  apply dyadic_trunc. nia.
Qed.

Lemma b64_of_int_dyadic (n : Z) : @of_int B64.binary64 _ n = dyadic 0 n.
Proof. reflexivity. Qed.

Lemma b64_of_int_valid (n : Z) :
  (0 <= n < 2 ^ 53)%Z ->
  valid_binary B64.prec B64.emax (of_int n) = true
  /\ B64.is_neg (of_int n) = false.
Proof.
  intros Hn. rewrite b64_of_int_dyadic.
  destruct (Z.eq_dec n 0%Z) as [->|Hnz]; [split; reflexivity|].
  destruct (dyadic_form 0 n) as (m & f & -> & Hb & _); [lia|lia|].
  split; [exact Hb|reflexivity].
Qed.

(* ================================================================== *)
(** * 23. The clock and the iteration count on binary64 *)
(* ================================================================== *)

Section ExactClock.
Context {Aux : Type}.
Variable status : list NodeStatus.
Variable diffuse : B64.binary64 -> Fields B64.binary64 Aux
                   -> Fields B64.binary64 Aux.

(** X7.  On binary64 the clock does not drift when the timestep is a
    dyadic number.  If [dt] is [d * 2^q] and the clock starts at [c * 2^q]
    for integers [0 <= d] and [0 <= c], and [c + nt * d] is below [2^53],
    then none of the [nt] additions [time_counter += dt] rounds: the loop
    completes and the clock ends at [(c + nt * d) * 2^q] exactly.  (An
    integer [dt] such as the notebooks' 1250 is the case [q = 0].) *)
Theorem dyadic_timestep_keeps_the_clock_exact
    (p : Hillslope.Params) (w : World B64.binary64 Aux B64.binary64)
    (q d c : Z) :
  keeps_shape (diffuse (Hillslope.dt p)) ->
  length (elevation (fields w)) = length status ->
  Hillslope.dt p = dyadic q d ->
  clock w = dyadic q c ->
  (-1074 <= q <= 971)%Z -> (0 <= d)%Z -> (0 <= c)%Z ->
  (0 <= Hillslope.nt p)%Z ->
  (c + Hillslope.nt p * d < 2 ^ 53)%Z ->
  fst (Hillslope.block7 status diffuse p w) = Ok tt
  /\ clock (snd (Hillslope.block7 status diffuse p w))
     = dyadic q (c + Hillslope.nt p * d).
Proof.
  intros Hshape Hlen Hdt Hclock Hq Hd Hc Hnt Hsum.
  unfold Hillslope.block7, for_range.
  destruct (hillslope_loop_runs status diffuse p Hshape
              (Z.to_nat (Hillslope.nt p)) 0 w Hlen)
    as (w' & E & _ & Hclock' & _).
  rewrite E. cbn [fst snd]. split; [reflexivity|].
  rewrite Hclock', Hdt, Hclock.
  change (@add B64.binary64 B64.num) with (SFadd B64.prec B64.emax).
  rewrite dyadic_accumulate by (rewrite ?Z2Nat.id; lia).
  rewrite Z2Nat.id by lia. reflexivity.
Qed.

(** X8.  On binary64, with a timestep [dt = d * 2^q] that is an integer
    or a dyadic fraction ([q <= 0], [0 < d < 2^53]) and a runtime with
    [0 <= runtime] and [runtime / 2^q < 2^53], Code Block 4 computes
    [nt = int(runtime // dt)] without rounding error: [nt] is the integer
    quotient of [runtime / 2^q] by [d], so that
    [nt * dt <= runtime < (nt + 1) * dt].  The run of Code Blocks 4 and 7
    then completes and leaves the clock at [nt * dt] exactly. *)
Theorem dyadic_timestep_gives_the_exact_count
    (dx D uplift_rate : B64.binary64) (runtime q d : Z)
    (w : World B64.binary64 Aux B64.binary64) :
  Hillslope.timestep dx D = Ok (dyadic q d) ->
  (-1074 <= q <= 0)%Z -> (0 < d < 2 ^ 53)%Z ->
  (0 <= runtime)%Z -> (runtime * 2 ^ (- q) < 2 ^ 53)%Z ->
  keeps_shape (diffuse (dyadic q d)) ->
  length (elevation (fields w)) = length status ->
  let nt := (runtime * 2 ^ (- q) / d)%Z in
  Hillslope.number_of_steps runtime (dyadic q d) = Ok nt
  /\ (nt * d <= runtime * 2 ^ (- q) < (nt + 1) * d)%Z
  /\ fst (Hillslope.run status diffuse dx D uplift_rate runtime w) = Ok tt
  /\ clock (snd (Hillslope.run status diffuse dx D uplift_rate runtime w))
     = dyadic q (nt * d).
Proof.
  intros Edt Hq Hd Hrun Hbound Hshape Hlen nt.
  assert (Hpow : (0 < 2 ^ (- q))%Z) by (apply Z.pow_pos_nonneg; lia).
  assert (Hnum : (0 <= runtime * 2 ^ (- q))%Z) by nia.
  pose proof (Z.mod_pos_bound (runtime * 2 ^ (- q)) d (proj1 Hd)) as Hr.
  pose proof (Z.div_mod (runtime * 2 ^ (- q)) d ltac:(lia)) as Hdm.
  fold nt in Hdm.
  assert (Hnt : (0 <= nt)%Z) by (apply Z.div_pos; lia).
  assert (En : Hillslope.number_of_steps runtime (dyadic q d) = Ok nt).
  { unfold Hillslope.number_of_steps, floordiv.
    cbn [eq_zero floor_quot to_int B64.num].
    assert (Hnz : B64.is_zero (dyadic q d) = false).
    { destruct (dyadic_form q d) as (m & f & -> & _); [lia|lia|reflexivity]. }
    rewrite Hnz. rewrite b64_of_int_dyadic.
    replace (dyadic 0 runtime) with (dyadic q (runtime * 2 ^ (- q))).
    2:{ replace q with (0 - - q)%Z at 1 by lia.
        apply dyadic_rescale; [nia|lia|lia]. }
    apply dyadic_floor_div; [lia|lia|lia]. }
  split; [exact En|]. split; [nia|].
  rewrite (hillslope_run_unfold status diffuse dx D uplift_rate runtime w
             _ _ Edt En).
  unfold Hillslope.block7, for_range. cbn [Hillslope.nt].
  destruct (hillslope_loop_runs status diffuse
              {| Hillslope.dt := dyadic q d; Hillslope.nt := nt;
                 Hillslope.uplift_per_step := mul uplift_rate (dyadic q d) |}
              Hshape (Z.to_nat nt) 0
              {| fields := fields w; clock := of_int 0; trace := trace w |}
              Hlen)
    as (w' & E & _ & Hclock & _).
  rewrite E. cbn [fst snd]. split; [reflexivity|].
  rewrite Hclock. cbn [Hillslope.dt clock].
  change (@of_int B64.binary64 _ 0) with (dyadic q 0).
  change (@add B64.binary64 B64.num) with (SFadd B64.prec B64.emax).
  rewrite dyadic_accumulate by (rewrite ?Z2Nat.id; lia).
  rewrite Z2Nat.id by lia. reflexivity.
Qed.

(** X9.  On binary64, a runtime shorter than one timestep makes no step.
    For [0 <= runtime < 2^53] and a timestep [dt] (a binary64 number or
    [+inf]) with [runtime < dt], [nt] is 0: Code Block 7 does not enter
    its loop, so nothing is uplifted, diffused or plotted; the run only
    resets the clock. *)
Theorem short_runtime_makes_no_step
    (dx D uplift_rate dt : B64.binary64) (runtime : Z)
    (w : World B64.binary64 Aux B64.binary64) :
  (0 <= runtime < 2 ^ 53)%Z ->
  Hillslope.timestep dx D = Ok dt ->
  valid_binary B64.prec B64.emax dt = true ->
  B64.lt (of_int runtime) dt ->
  Hillslope.number_of_steps runtime dt = Ok 0%Z
  /\ Hillslope.run status diffuse dx D uplift_rate runtime w
     = (Ok tt, {| fields := fields w; clock := of_int 0; trace := trace w |}).
Proof.
  intros Hrun Edt Hv Hlt.
  destruct (b64_of_int_valid runtime Hrun) as [Hvr Hneg].
  assert (En : Hillslope.number_of_steps runtime dt = Ok 0%Z).
  { unfold Hillslope.number_of_steps, floordiv.
    cbn [eq_zero floor_quot to_int B64.num].
    assert (Hnz : B64.is_zero dt = false).
    { pose proof Hlt as Hlt'. unfold B64.lt in Hlt'.
      unfold B64.is_neg, B64.pos_zero in Hneg.
      destruct dt as [s|s| |s m e]; try reflexivity.
      destruct (@of_int B64.binary64 _ runtime) as [[]|[]| |[] mx ex];
        cbn in Hlt', Hneg; discriminate. }
    rewrite Hnz. apply b64_floor_div_small; assumption. }
  split; [exact En|].
  rewrite (hillslope_run_unfold status diffuse dx D uplift_rate runtime w
             dt 0 Edt En).
  reflexivity.
Qed.

End ExactClock.

(* ================================================================== *)
(** * 24. Degenerate inputs, and the arrays of the channels notebook *)
(* ================================================================== *)

Section DegenerateInputs.
Context {Aux : Type}.
Variable status : list NodeStatus.
Variable diffuse : B64.binary64 -> Fields B64.binary64 Aux
                   -> Fields B64.binary64 Aux.




End DegenerateInputs.

Lemma take_at_replicate {T} (x : T) (n : nat) (idx : list nat) :
  (forall i, i ∈ idx -> i < n) ->
  take_at (replicate n x) idx = Ok (replicate (length idx) x).
Proof.
  induction idx as [|i idx IH]; intros Hin; [reflexivity|].
  cbn [take_at length replicate].
  rewrite lookup_replicate_2 by (apply Hin; left).
  rewrite IH by (intros j Hj; apply Hin; right; exact Hj). reflexivity.
Qed.

Lemma map_replicate {A B} (f : A -> B) (n : nat) (x : A) :
  map f (replicate n x) = replicate n (f x).
Proof. induction n as [|n IH]; cbn; [|rewrite IH]; reflexivity. Qed.

Section UniformUplift.
Context {Aux : Type}.
Variable status : list NodeStatus.

(** X11.  The array of Code Block 6 acts as a scalar.  On binary64
    [np.ones(n) * rate] holds [rate] itself in every entry, since [1.0 * x]
    is [x]; so the uplift statement of the channels loop,
    [z1[core_nodes] += uplift_rate[core_nodes] * dt], adds the one number
    [rate * dt] to every core node, as the hillslope loop does with
    [uplift_per_step]. *)
Theorem uniform_rate_array_acts_as_a_scalar
    (rate : B64.binary64) (dt : Z) (w : World B64.binary64 Aux Z) :
  valid_binary B64.prec B64.emax rate = true ->
  Channels.block6 (length status) rate = replicate (length status) rate
  /\ Channels.uplift status (Channels.block6 (length status) rate) dt w
     = uplift_at add (core_nodes status)
         (replicate (length (core_nodes status)) (mul rate (of_int dt))) w.
Proof.
  intros Hv.
  assert (E6 : Channels.block6 (length status) rate
               = replicate (length status) rate).
  { unfold Channels.block6. rewrite map_replicate. f_equal.
    apply b64_one_mul, Hv. }
  split; [exact E6|].
  unfold Channels.uplift, bind, lift. rewrite E6.
  rewrite take_at_replicate by apply core_nodes_lt.
  rewrite map_replicate. reflexivity.
Qed.

End UniformUplift.

Lemma round_aux_not_negative_zero (m e : Z) (l : location) :
  binary_round_aux B64.prec B64.emax false m e l <> S754_zero true.
Proof.
  unfold binary_round_aux.
  destruct (shr_fexp _ _ _ _ _) as [mrs e'].
  destruct (shr_fexp _ _ _ _ _) as [mrs' e''].
  destruct (shr_m mrs'); [discriminate| |discriminate].
  destruct (e'' <=? _)%Z; discriminate.
Qed.

Lemma b64_scaled_noise_not_negative_zero (x : B64.binary64) :
  sign_bit x = false ->
  SFdiv B64.prec B64.emax x (B64.of_Z 1000) <> S754_zero true.
Proof.
  change (B64.of_Z 1000) with (S754_finite false 8796093022208000 (-43)).
  destruct x as [[]|[]| |[] m e]; cbn [sign_bit]; intros Hs;
    try discriminate.
  unfold SFdiv. cbn [xorb].
  destruct (SFdiv_core_binary _ _ _ _ _ _) as [[mz ez] lz].
  apply round_aux_not_negative_zero.
Qed.

Lemma b64_add_to_zeros (l : list B64.binary64) :
  Forall (fun y => y <> S754_zero true) l ->
  zip_with (SFadd B64.prec B64.emax)
           (replicate (length l) (S754_zero false)) l = l.
Proof.
  induction 1 as [|y l Hy _ IH]; [reflexivity|].
  cbn [length replicate zip_with]. rewrite IH. f_equal.
  destruct y as [[]|[]| |[] m e]; try reflexivity. congruence.
Qed.

Section InitialTopography.
Context {Rng : Type}.
Variable np_seed : Z -> Rng.
Variable np_rand : nat -> Rng -> list B64.binary64 * Rng.

(** X12.  The initial topography of the channels notebook is the noise
    itself.  On binary64, when the generator returns [n] numbers none of
    which carries a minus sign (as for draws from [[0, 1)]), adding
    [rand(n) / 1000] in place to the all-zero array [z1] of Code Block 3
    leaves [z1] holding exactly the scaled draws of the generator seeded
    with 56, whatever the state of the generator was before. *)
Theorem initial_topography_is_the_scaled_noise (n : nat) (ambient : Rng) :
  length (fst (np_rand n (np_seed 56))) = n ->
  Forall (fun x => sign_bit x = false) (fst (np_rand n (np_seed 56))) ->
  fst (Channels.block3 np_seed np_rand n ambient)
  = map (fun x => div x (of_int 1000)) (fst (np_rand n (np_seed 56))).
Proof.
  intros Hlen Hsign. unfold Channels.block3. cbn [fst].
  set (noise := map _ _).
  replace n with (length noise) by (unfold noise; rewrite length_map; exact Hlen).
  apply b64_add_to_zeros. unfold noise. apply Forall_map.
  revert Hsign. apply List.Forall_impl.
  intros x Hx. apply b64_scaled_noise_not_negative_zero, Hx.
Qed.

End InitialTopography.

(* ================================================================== *)
(** * 25. The shape of the analytical profile *)
(* ================================================================== *)

(** X13.  The shape of the analytical profile of Code Block 5, in exact
    arithmetic and for [D <> 0]: its value at the divide
    [y = divide_loc] is [(U / (2 * D)) * half_width^2]; it vanishes at
    [y = 0] and at [y = 2 * half_width], the two ends of the domain; it is
    symmetric about the divide; and when [U / D >= 0] no value exceeds the
    value at the divide and no value inside the domain is negative. *)
Theorem analytical_profile_is_a_symmetric_hill
    (rows : Z) (dx U D y t : R) :
  D <> 0%R ->
  let h := Hillslope.half_width rows dx in
  Hillslope.zs_at rows dx U D h = Ok (analytical_peak rows dx U D)
  /\ Hillslope.zs_at rows dx U D 0%R = Ok 0%R
  /\ Hillslope.zs_at rows dx U D (2 * h)%R = Ok 0%R
  /\ Hillslope.zs_at rows dx U D (h + t)%R
     = Hillslope.zs_at rows dx U D (h - t)%R
  /\ ((0 <= U / D)%R ->
      exists z, Hillslope.zs_at rows dx U D y = Ok z
                /\ (z <= analytical_peak rows dx U D)%R
                /\ ((0 <= y <= 2 * h)%R -> (0 <= z)%R)).
Proof.
  intros HD h.
  assert (H2D : Ideal.is_zero (2 * D) = false).
  { unfold Ideal.is_zero. destruct (Req_dec_T (2 * D) 0); [lra|reflexivity]. }
  assert (Ezs : forall v,
             Hillslope.zs_at rows dx U D v
             = Ok (U / (2 * D) * (h * h - (v - h) * (v - h)))%R).
  { intros v. unfold Hillslope.zs_at, truediv. cbn. rewrite H2D. reflexivity. }
  assert (Epeak : analytical_peak rows dx U D = (U / (2 * D) * (h * h))%R)
    by reflexivity.
  rewrite !Ezs, Epeak. clear Ezs Epeak. clearbody h.
  split; [|split; [|split; [|split]]].
  - f_equal. ring.
  - f_equal. ring.
  - f_equal. ring.
  - f_equal. ring.
  - intros HUD.
    assert (Hc : (0 <= U / (2 * D))%R).
    { replace (U / (2 * D))%R with (U / D * / 2)%R by (field; exact HD). lra. }
    eexists. split; [reflexivity|]. split.
    + apply Rmult_le_compat_l; [exact Hc|].
      pose proof (Rle_0_sqr (y - h)) as Hsq. unfold Rsqr in Hsq. lra.
    + intros Hy. apply Rmult_le_pos; [exact Hc|].
      replace (h * h - (y - h) * (y - h))%R with (y * (2 * h - y))%R by ring.
      apply Rmult_le_pos; lra.
Qed.

Lemma b64_square_of_opposite (x : B64.binary64) :
  is_finite x = true ->
  power2 (SFsub B64.prec B64.emax (S754_zero false) x) = power2 x.
Proof.
  destruct x as [[]|[]| |[] m e]; cbn [is_finite]; try discriminate;
    reflexivity.
Qed.

Lemma b64_mul_zero (c : B64.binary64) :
  is_finite c = true ->
  exists s, SFmul B64.prec B64.emax c (S754_zero false) = S754_zero s.
Proof.
  destruct c as [s|s| |s m e]; cbn [is_finite]; try discriminate; intros _;
    eexists; reflexivity.
Qed.

Lemma b64_is_finite_square (x : B64.binary64) :
  is_finite (power2 x) = true -> is_finite x = true.
Proof. destruct x as [[]|[]| |[] m e]; cbn; auto. Qed.

(** X14.  On binary64, for every [D > 0] and every grid whose squared
    half-width is finite, the entry of [zs] at the divide is exactly
    [(U / (2 * D)) * half_width^2], with no rounding beyond that of this
    product; and when [U / (2 * D)] is finite the entry at [y = 0], the
    first entry of [zs], is a zero. *)
Theorem analytical_profile_at_divide_and_origin
    (rows : Z) (dx U D : B64.binary64) :
  valid_binary B64.prec B64.emax D = true ->
  B64.lt B64.pos_zero D ->
  is_finite (power2 (Hillslope.half_width rows dx)) = true ->
  Hillslope.zs_at rows dx U D (Hillslope.divide_loc rows dx)
  = Ok (analytical_peak rows dx U D)
  /\ (is_finite (div U (mul (of_int 2) D)) = true ->
      exists s, Hillslope.zs_at rows dx U D (of_int 0) = Ok (S754_zero s)).
Proof.
  intros Hv HD Hfin.
  pose proof (b64_is_finite_square _ Hfin) as Hh.
  unfold Hillslope.zs_at, truediv, analytical_peak.
  cbn [eq_zero mul of_int B64.num].
  rewrite (b64_double_not_zero D Hv HD).
  change (Hillslope.divide_loc rows dx) with (Hillslope.half_width rows dx).
  cbn [sub div mul of_int B64.num]. split.
  - rewrite (b64_sub_self _ Hh).
    change (power2 (S754_zero false)) with (S754_zero false).
    rewrite b64_sub_zero. reflexivity.
  - intros Hc. change (B64.of_Z 0) with (S754_zero false).
    rewrite (b64_square_of_opposite _ Hh), (b64_sub_self _ Hfin).
    destruct (b64_mul_zero _ Hc) as [s ->]. exists s. reflexivity.
Qed.

(* ================================================================== *)
(** * 26. The statements of sections 21 to 25 at concrete inputs *)
(* ================================================================== *)

Lemma idle_keeps_boundary {T Aux} (status : list NodeStatus) :
  keeps_boundary status (@Sample.idle T Aux).
Proof. intros f i _. reflexivity. Defined.

Lemma halfway_plot_is_drawn_once_witness :
  keeps_shape (@Sample.idle B64.binary64 unit)
  /\ length (elevation (fields (Sample.flat (T := B64.binary64)
                                  9 B64.pos_zero)))
     = length Sample.small_grid
  /\ (0 < Hillslope.nt Sample.short_run)%Z
  /\ trace (snd (Hillslope.block7 Sample.small_grid (fun _ => Sample.idle)
                   Sample.short_run (Sample.flat 9 B64.pos_zero)))
     = rounds Sample.short_run 6 ++ [EvShow] ++ rounds Sample.short_run 4.
Proof.
  split; [exact idle_keeps_shape|]. split; [reflexivity|].
  split; [reflexivity|].
  destruct (halfway_plot_is_drawn_once Sample.small_grid
              (fun _ => Sample.idle) Sample.short_run
              (Sample.flat 9 B64.pos_zero) idle_keeps_shape eq_refl)
    as (w' & E & Hplot & _).
  rewrite E. exact (Hplot eq_refl).
Defined.

Lemma channels_loop_counts_entries_witness :
  keeps_shape (@Sample.idle B64.binary64 unit)
  /\ length (Channels.block6 9 Sample.uplift_rate) = length Sample.small_grid
  /\ length (elevation (fields (Sample.flat (T := B64.binary64) 9 0%Z)))
     = length Sample.small_grid
  /\ fst (Channels.block7 (fun _ => Sample.idle) Sample.idle
            (fun _ => Sample.idle) Sample.small_grid
            (Channels.block6 9 Sample.uplift_rate) 1000 Sample.ten_steps
            (Sample.flat 9 0%Z)) = Ok tt
  /\ clock (snd (Channels.block7 (fun _ => Sample.idle) Sample.idle
                   (fun _ => Sample.idle) Sample.small_grid
                   (Channels.block6 9 Sample.uplift_rate) 1000
                   Sample.ten_steps (Sample.flat 9 0%Z)))
     = 10000%Z.
Proof.
  split; [exact idle_keeps_shape|]. split; [reflexivity|].
  split; [reflexivity|].
  destruct (channels_loop_counts_entries Sample.small_grid
              (fun _ => Sample.idle) Sample.idle (fun _ => Sample.idle)
              (Channels.block6 9 Sample.uplift_rate) 1000 Sample.ten_steps
              (Sample.flat 9 0%Z)
              idle_keeps_shape idle_keeps_shape idle_keeps_shape
              eq_refl eq_refl)
    as (w' & E & _ & Hclock & _).
  rewrite E. split; [reflexivity|exact Hclock].
Defined.

Lemma boundary_elevation_is_fixed_over_a_run_witness :
  keeps_boundary Sample.small_grid (@Sample.idle B64.binary64 unit)
  /\ is_boundary_node Sample.small_grid 0
  /\ elevation
       (fields (snd (Hillslope.block7 Sample.small_grid (fun _ => Sample.idle)
                       Sample.short_run (Sample.flat 9 B64.pos_zero)))) !! 0
     = elevation (fields (Sample.flat (T := B64.binary64) 9 B64.pos_zero)) !! 0
  /\ elevation
       (fields (snd (Channels.block7 (fun _ => Sample.idle) Sample.idle
                       (fun _ => Sample.idle) Sample.small_grid
                       (Channels.block6 9 Sample.uplift_rate) 1000
                       Sample.ten_steps (Sample.flat 9 0%Z)))) !! 0
     = elevation (fields (Sample.flat (T := B64.binary64) 9 0%Z)) !! 0.
Proof.
  split; [exact (idle_keeps_boundary _)|].
  split; [exact small_grid_corner_is_boundary|].
  exact (boundary_elevation_is_fixed_over_a_run Sample.small_grid
           (fun _ => Sample.idle) (fun _ => Sample.idle) Sample.idle
           (fun _ => Sample.idle) Sample.short_run
           (Sample.flat 9 B64.pos_zero)
           (Channels.block6 9 Sample.uplift_rate) 1000 Sample.ten_steps
           (Sample.flat 9 0%Z) 0
           (idle_keeps_boundary _) (idle_keeps_boundary _)
           (idle_keeps_boundary _) (idle_keeps_boundary _)
           small_grid_corner_is_boundary).
Defined.

Lemma loop_fails_at_once_or_never_witness :
  keeps_shape (@Sample.idle B64.binary64 unit)
  /\ fst (Hillslope.block7 Sample.small_grid (fun _ => Sample.idle)
            Sample.short_run (Sample.flat 3 B64.pos_zero))
     = Raise IndexError
  /\ snd (Hillslope.block7 Sample.small_grid (fun _ => Sample.idle)
            Sample.short_run (Sample.flat 3 B64.pos_zero))
     = Sample.flat 3 B64.pos_zero
  /\ fst (Channels.block7 (fun _ => Sample.idle) Sample.idle
            (fun _ => Sample.idle) Sample.small_grid
            (Channels.block6 3 Sample.uplift_rate) 1000 Sample.ten_steps
            (Sample.flat 9 0%Z))
     = Raise IndexError
  /\ snd (Channels.block7 (fun _ => Sample.idle) Sample.idle
            (fun _ => Sample.idle) Sample.small_grid
            (Channels.block6 3 Sample.uplift_rate) 1000 Sample.ten_steps
            (Sample.flat 9 0%Z))
     = Sample.flat 9 0%Z.
Proof.
  split; [exact idle_keeps_shape|].
  destruct (loop_fails_at_once_or_never Sample.small_grid
              (fun _ => Sample.idle) (fun _ => Sample.idle) Sample.idle
              (fun _ => Sample.idle) Sample.short_run
              (Sample.flat 3 B64.pos_zero)
              (Channels.block6 3 Sample.uplift_rate) 1000 Sample.ten_steps
              (Sample.flat 9 0%Z)
              idle_keeps_shape idle_keeps_shape idle_keeps_shape
              idle_keeps_shape)
    as [Hh Hc].
  destruct (Hh IndexError eq_refl) as (_ & Hsh & _).
  destruct (Hc IndexError eq_refl) as (_ & Hsc & _).
  split; [reflexivity|]. split; [exact Hsh|].
  split; [reflexivity|exact Hsc].
Defined.

Lemma channels_run_completes_witness :
  length (fst ((fun n state => (replicate n Sample.uplift_rate, S state))
                 9 (Z.to_nat 56))) = 9
  /\ (forall z : list B64.binary64,
        length (map (fun _ => Core) z) = length z)
  /\ keeps_shape (@Sample.idle B64.binary64 unit)
  /\ fst (Channels.run (fun seed => Z.to_nat seed)
            (fun n state => (replicate n Sample.uplift_rate, S state))
            (fun z => map (fun _ => Core) z)
            (fun _ => Sample.idle) Sample.idle (fun _ => Sample.idle)
            9 Sample.uplift_rate 1000 Sample.ten_steps tt 0) = Ok tt
  /\ clock (snd (Channels.run (fun seed => Z.to_nat seed)
                   (fun n state => (replicate n Sample.uplift_rate, S state))
                   (fun z => map (fun _ => Core) z)
                   (fun _ => Sample.idle) Sample.idle (fun _ => Sample.idle)
                   9 Sample.uplift_rate 1000 Sample.ten_steps tt 0))
     = 10000%Z.
Proof.
  split; [reflexivity|]. split; [intros z; apply length_map|].
  split; [exact idle_keeps_shape|].
  destruct (channels_run_completes (fun seed => Z.to_nat seed)
              (fun n state => (replicate n Sample.uplift_rate, S state))
              (fun z => map (fun _ => Core) z)
              (fun _ => Sample.idle) Sample.idle (fun _ => Sample.idle)
              9 Sample.uplift_rate 1000 Sample.ten_steps tt 0
              eq_refl (fun z => length_map (fun _ => Core) z)
              idle_keeps_shape idle_keeps_shape idle_keeps_shape)
    as (w' & E & _ & Hclock & _).
  rewrite E. split; [reflexivity|exact Hclock].
Defined.

Lemma dyadic_timestep_keeps_the_clock_exact_witness :
  keeps_shape (@Sample.idle B64.binary64 unit)
  /\ Hillslope.dt Sample.short_run = dyadic 0 1000
  /\ clock (Sample.flat (T := B64.binary64) (DT := B64.binary64)
              9 B64.pos_zero) = dyadic 0 0
  /\ (0 + Hillslope.nt Sample.short_run * 1000 < 2 ^ 53)%Z
  /\ clock (snd (Hillslope.block7 Sample.small_grid (fun _ => Sample.idle)
                   Sample.short_run (Sample.flat 9 B64.pos_zero)))
     = of_int 10000.
Proof.
  split; [exact idle_keeps_shape|]. split; [reflexivity|].
  split; [reflexivity|]. split; [reflexivity|].
  destruct (dyadic_timestep_keeps_the_clock_exact Sample.small_grid
              (fun _ => Sample.idle) Sample.short_run
              (Sample.flat 9 B64.pos_zero) 0 1000 0
              idle_keeps_shape eq_refl eq_refl eq_refl
              ltac:(lia) ltac:(lia) ltac:(lia) ltac:(cbn; lia) eq_refl)
    as [_ Hclock].
  exact Hclock.
Defined.

Lemma sample_timestep : Hillslope.timestep Sample.dx Sample.D
                        = Ok (dyadic 0 1250).
Proof. vm_compute. reflexivity. Defined.

Lemma dyadic_timestep_gives_the_exact_count_witness :
  Hillslope.timestep Sample.dx Sample.D = Ok (dyadic 0 1250)
  /\ (Sample.runtime * 2 ^ (- 0) < 2 ^ 53)%Z
  /\ keeps_shape (@Sample.idle B64.binary64 unit)
  /\ Hillslope.number_of_steps Sample.runtime (dyadic 0 1250) = Ok 800%Z
  /\ clock (snd (Hillslope.run Sample.small_grid (fun _ => Sample.idle)
                   Sample.dx Sample.D Sample.uplift_rate Sample.runtime
                   (Sample.flat 9 B64.pos_zero)))
     = of_int 1000000.
Proof.
  split; [exact sample_timestep|]. split; [reflexivity|].
  split; [exact idle_keeps_shape|].
  pose proof (dyadic_timestep_gives_the_exact_count Sample.small_grid
                (fun _ => Sample.idle) Sample.dx Sample.D Sample.uplift_rate
                Sample.runtime 0 1250 (Sample.flat 9 B64.pos_zero)
                sample_timestep ltac:(lia) ltac:(lia)
                ltac:(unfold Sample.runtime; lia) eq_refl
                idle_keeps_shape eq_refl) as Hthm.
  cbv zeta in Hthm. destruct Hthm as (En & _ & _ & Hclock).
  split; [exact En|exact Hclock].
Defined.

Lemma short_runtime_makes_no_step_witness :
  (0 <= 1000 < 2 ^ 53)%Z
  /\ Hillslope.timestep Sample.dx Sample.D = Ok (dyadic 0 1250)
  /\ valid_binary B64.prec B64.emax (dyadic 0 1250) = true
  /\ B64.lt (of_int 1000) (dyadic 0 1250)
  /\ Hillslope.number_of_steps 1000 (dyadic 0 1250) = Ok 0%Z
  /\ Hillslope.run Sample.small_grid (fun _ => Sample.idle)
       Sample.dx Sample.D Sample.uplift_rate 1000 (Sample.flat 9 B64.pos_zero)
     = (Ok tt, Sample.flat 9 (of_int 0)).
Proof.
  split; [lia|]. split; [exact sample_timestep|]. split; [reflexivity|].
  split; [reflexivity|].
  exact (short_runtime_makes_no_step Sample.small_grid (fun _ => Sample.idle)
           Sample.dx Sample.D Sample.uplift_rate (dyadic 0 1250) 1000
           (Sample.flat 9 B64.pos_zero)
           ltac:(lia) sample_timestep eq_refl eq_refl).
Defined.


Lemma uniform_rate_array_acts_as_a_scalar_witness :
  valid_binary B64.prec B64.emax Sample.uplift_rate = true
  /\ Channels.block6 9 Sample.uplift_rate = replicate 9 Sample.uplift_rate.
Proof.
  split; [reflexivity|].
  destruct (uniform_rate_array_acts_as_a_scalar Sample.small_grid
              Sample.uplift_rate 1000 (Sample.flat 9 0%Z) eq_refl)
    as [E _].
  exact E.
Defined.

Lemma initial_topography_is_the_scaled_noise_witness :
  length (fst ((fun n state => (replicate n Sample.uplift_rate, S state))
                 9 (Z.to_nat 56))) = 9
  /\ Forall (fun x => sign_bit x = false) (replicate 9 Sample.uplift_rate)
  /\ fst (Channels.block3 (fun seed => Z.to_nat seed)
            (fun n state => (replicate n Sample.uplift_rate, S state)) 9 7)
     = replicate 9 (div Sample.uplift_rate (of_int 1000)).
Proof.
  assert (Hsign : Forall (fun x => sign_bit x = false)
                         (replicate 9 Sample.uplift_rate))
    by (repeat constructor).
  split; [reflexivity|]. split; [exact Hsign|].
  exact (initial_topography_is_the_scaled_noise (fun seed => Z.to_nat seed)
           (fun n state => (replicate n Sample.uplift_rate, S state)) 9 7
           eq_refl Hsign).
Defined.

Lemma one_hundredth_not_zero : (1 / 100)%R <> 0%R.
Proof. lra. Defined.

Lemma analytical_profile_is_a_symmetric_hill_witness :
  (1 / 100)%R <> 0%R
  /\ Hillslope.zs_at 41 5%R (1 / 10000)%R (1 / 100)%R
       (Hillslope.half_width 41 5%R)
     = Ok (analytical_peak 41 5%R (1 / 10000)%R (1 / 100)%R)
  /\ Hillslope.zs_at 41 5%R (1 / 10000)%R (1 / 100)%R 0%R = Ok 0%R
  /\ Hillslope.zs_at 41 5%R (1 / 10000)%R (1 / 100)%R
       (Hillslope.half_width 41 5%R + 10)%R
     = Hillslope.zs_at 41 5%R (1 / 10000)%R (1 / 100)%R
         (Hillslope.half_width 41 5%R - 10)%R.
Proof.
  split; [exact one_hundredth_not_zero|].
  pose proof (analytical_profile_is_a_symmetric_hill 41 5%R (1 / 10000)%R
                (1 / 100)%R 30%R 10%R one_hundredth_not_zero) as Hthm.
  cbv zeta in Hthm. destruct Hthm as (Hpeak & Hzero & _ & Hsym & _).
  split; [exact Hpeak|]. split; [exact Hzero|exact Hsym].
Defined.

Lemma analytical_profile_at_divide_and_origin_witness :
  valid_binary B64.prec B64.emax Sample.D = true
  /\ B64.lt B64.pos_zero Sample.D
  /\ is_finite (power2 (Hillslope.half_width 41 Sample.dx)) = true
  /\ Hillslope.zs_at 41 Sample.dx Sample.uplift_rate Sample.D
       (Hillslope.divide_loc 41 Sample.dx)
     = Ok (analytical_peak 41 Sample.dx Sample.uplift_rate Sample.D).
Proof.
  split; [exact sample_D_valid|]. split; [exact sample_D_positive|].
  split; [reflexivity|].
  destruct (analytical_profile_at_divide_and_origin 41 Sample.dx
              Sample.uplift_rate Sample.D sample_D_valid sample_D_positive
              eq_refl) as [Hpeak _].
  exact Hpeak.
Defined.
